(** * reddit-scout: a shallow embedding of the scout, notifier and scheduler

    The three scripts [scripts/scout.js], [scripts/notify.js] and
    [scripts/scheduler.js] are embedded as pure functions over explicit
    stores.  Text is modelled as ASCII strings (the regular expressions of the
    source, without the [u] flag, see every non-ASCII character as a non-word
    character); JavaScript numbers are modelled by exact integers and
    rationals; the clock, the identifier generator and the network are
    parameters of the functions that use them. *)

From Stdlib Require Import ZArith QArith Qround Ascii String.
From stdpp Require Import base tactics option list strings.
From stdpp Require Import sorting.

(** ** JavaScript primitives used by the scripts *)

Module JS.

(** [String.prototype.toLowerCase], on ASCII text. *)
Definition lowerChar (c : ascii) : ascii :=
  let n := nat_of_ascii c in
  if (65 <=? n) && (n <=? 90) then ascii_of_nat (n + 32) else c.

Fixpoint toLowerCase (s : string) : string :=
  match s with
  | EmptyString => EmptyString
  | String c r => String (lowerChar c) (toLowerCase r)
  end.

(** [s.startsWith(w)] and [s.includes(w)]. *)
Fixpoint startsWith (s w : string) : bool :=
  match w, s with
  | EmptyString, _ => true
  | String _ _, EmptyString => false
  | String a w', String b s' => if decide (a = b) then startsWith s' w' else false
  end.

Fixpoint includes (s w : string) : bool :=
  match s with
  | EmptyString => startsWith EmptyString w
  | String _ r => startsWith s w || includes r w
  end.

(** The class [\w] of the regular expressions: letters, digits, underscore. *)
Definition isWordChar (c : ascii) : bool :=
  let n := nat_of_ascii c in
  (48 <=? n) && (n <=? 57) || (65 <=? n) && (n <=? 90)
  || (97 <=? n) && (n <=? 122) || (n =? 95).

(** The class [\s], on ASCII: tab, line feed, vertical tab, form feed,
    carriage return and space. *)
Definition isSpace (c : ascii) : bool :=
  let n := nat_of_ascii c in
  (9 <=? n) && (n <=? 13) || (n =? 32).

(** [s.match(new RegExp("\\b" + w, "gi"))] counted, for a non-empty literal
    word [w] and a lowercased [s]: the scan goes left to right, a match at a
    position needs a word boundary there (exactly one of the previous and
    the current character is a word character) and [w] as a prefix of the
    rest, and the scan resumes after the matched text.  [prev] tells whether
    the previous character is a word character, [skip] how many characters
    of the last match are still to be passed. *)
Fixpoint countFrom (w : string) (prev : bool) (skip : nat) (s : string) : nat :=
  match s with
  | EmptyString => 0
  | String c r =>
      match skip with
      | S k => countFrom w (isWordChar c) k r
      | O =>
          if xorb prev (isWordChar c) && startsWith s w
          then S (countFrom w (isWordChar c) (String.length w - 1) r)
          else countFrom w (isWordChar c) 0 r
      end
  end.

Definition countMatches (w s : string) : nat := countFrom w false 0 s.

(** [s.split(/\s+/)]: the pieces between maximal runs of white space; a
    leading or trailing run leaves an empty first or last piece, and the
    empty string splits into one empty piece.  [inWs] tells whether the
    previous character belongs to a separator. *)
Fixpoint splitGo (inWs : bool) (s : string) : list string :=
  match s with
  | EmptyString => [EmptyString]
  | String c r =>
      if isSpace c then
        if inWs then splitGo true r else EmptyString :: splitGo true r
      else
        match splitGo false r with
        | [] => [String c EmptyString]
        | p :: ps => String c p :: ps
        end
  end.

Definition splitWs (s : string) : list string := splitGo false s.

(** [Math.round]: the nearest integer, halves towards plus infinity. *)
Definition mathRound (x : Q) : Z := Qfloor (x + (1 # 2)).

(** A JavaScript [Set] of strings keeps its elements in insertion order and
    [add] of a present element changes nothing. *)
Definition setHas (s : list string) (k : string) : bool := bool_decide (k ∈ s).

Definition setAdd (s : list string) (k : string) : list string :=
  if setHas s k then s else s ++ [k].

(** [new Set(array)]. *)
Definition setOfArray (a : list string) : list string := foldl setAdd [] a.

(** [array.slice(-n)]: the last [n] elements, all of them when there are
    fewer. *)
Definition sliceLast {A} (n : nat) (a : list A) : list A :=
  drop (length a - n) a.

(** [loadJSON(file, defaultVal)]: a missing or unreadable file gives the
    default. *)
Definition loadJSON {A} (file : option A) (defaultVal : A) : A :=
  default defaultVal file.

End JS.

(** ** The listing returned by the content API *)

Module Reddit.

(** [child.data] of a listing: the fields the scripts read.  [selftext] is
    absent for link posts; [created_utc] counts seconds. *)
Record PostData := mkPostData {
  id : string;
  title : string;
  selftext : option string;
  score : Z;
  num_comments : Z;
  author : string;
  created_utc : Z;
  permalink : string
}.

Record Child := mkChild {
  kind : string;
  data : PostData
}.

(** The network: the children of the listing of a community for a page
    size, or [None] when the request raises. *)
Definition Fetch := string -> nat -> option (list Child).

End Reddit.

(** ** The files of the data directory *)

Module Data.

(** Timestamps are ISO strings in the files; they are modelled by the
    milliseconds they denote. *)
Definition Time := Z.

Inductive Status := pending | posted | failed | cancelled.

Global Instance Status_eq_dec : EqDecision Status.
Proof. solve_decision. Defined.

(** A record of [scheduled-posts.json] and of [post-history.json]. *)
Record ScheduledPost := mkScheduledPost {
  id : string;
  subreddit : string;
  title : string;
  content : string;
  scheduledTime : Time;
  createdAt : Time;
  status : Status;
  flair : option string;
  nsfw : bool;
  spoiler : bool;
  cancelledAt : option Time;
  postedAt : option Time;
  redditUrl : option string
}.

(** A record of [keyword-alerts.json]. *)
Record Alert := mkAlert {
  alertId : string;
  keywords : list string;
  subreddits : list string;
  alertCreatedAt : Time;
  enabled : bool;
  notifyVia : string;
  lastChecked : option Time;
  matchCount : nat
}.

(** [competitors.json]. *)
Record CompetitorConfig := mkCompetitorConfig {
  competitors : list string;
  competitorSubreddits : list string
}.

(** The data directory; [None] is a missing or unreadable file.  The
    digest file, which is written and never read, is left out. *)
Record Store := mkStore {
  scheduledPosts : option (list ScheduledPost);
  keywordAlerts : option (list Alert);
  postHistory : option (list ScheduledPost);
  seenMatches : option (list string);
  competitorsFile : option CompetitorConfig
}.

End Data.

(** ** scripts/scout.js *)

Module Scout.
Import JS.

Definition POSITIVE_WORDS : list string :=
  [ "love"; "amazing"; "great"; "awesome"; "excellent"; "fantastic";
    "perfect"; "best"; "wonderful"; "incredible"; "brilliant"; "outstanding";
    "happy"; "satisfied"; "impressed"; "recommend"; "thank"; "thanks";
    "helpful"; "useful"; "solved"; "works great"; "game changer"; "life saver" ].

Definition NEGATIVE_WORDS : list string :=
  [ "hate"; "terrible"; "awful"; "horrible"; "worst"; "bad"; "poor";
    "disappointed"; "frustrat"; "annoyed"; "angry"; "useless"; "broken";
    "bug"; "issue"; "problem"; "fail"; "crash"; "slow"; "expensive";
    "scam"; "waste"; "regret"; "avoid"; "sucks"; "ridiculous" ].

Definition NEGATION_WORDS : list string :=
  [ "not"; "don't"; "doesn't"; "didn't"; "won't"; "can't"; "never"; "no" ].

Inductive Label := positiveL | negativeL | neutralL.

Global Instance Label_eq_dec : EqDecision Label.
Proof. solve_decision. Defined.

Record Sentiment := mkSentiment {
  label : Label;
  compound : Q;
  positive : Z;
  negative : Z
}.

(** The two counting loops: every lexicon word adds the number of its
    matches. *)
Definition lexiconScore (lexicon : list string) (lowerText : string) : Z :=
  foldl (fun score word => score + Z.of_nat (countMatches word lowerText))%Z 0%Z lexicon.

(** One step of the negation loop at [words[i]], [words[i + 1]]. *)
Definition negationStep (w next : string) (scores : Z * Z) : Z * Z :=
  if bool_decide (w ∈ NEGATION_WORDS) then
    let s1 :=
      if existsb (fun pw => includes next pw) POSITIVE_WORDS
      then (scores.1 - 1, scores.2 + 1)%Z else scores in
    if existsb (fun nw => includes next nw) NEGATIVE_WORDS
    then (s1.1 + 1, s1.2 - 1)%Z else s1
  else scores.

(** The negation loop, [i] from [0] to [words.length - 2]. *)
Fixpoint negationLoop (words : list string) (scores : Z * Z) : Z * Z :=
  match words with
  | [] => scores
  | w :: rest =>
      match rest with
      | [] => scores
      | next :: _ => negationLoop rest (negationStep w next scores)
      end
  end.

(** [positiveScore] and [negativeScore] when the loops are over. *)
Definition scores (text : string) : Z * Z :=
  let lowerText := toLowerCase text in
  negationLoop (splitWs lowerText)
    (lexiconScore POSITIVE_WORDS lowerText, lexiconScore NEGATIVE_WORDS lowerText).

(** The compound score before it is rounded. *)
Definition compoundOf (positiveScore negativeScore : Z) : Q :=
  let total := (positiveScore + negativeScore)%Z in
  if (0 <? total)%Z
  then inject_Z (positiveScore - negativeScore) / inject_Z total
  else 0.

Definition labelOf (c : Q) : Label :=
  if Qle_bool (1 # 5) c then positiveL
  else if Qle_bool c (- (1 # 5)) then negativeL
  else neutralL.

(** [Math.round(compound * 100) / 100]. *)
Definition round2 (c : Q) : Q := inject_Z (mathRound (c * 100)) / 100.

Definition analyzeSentiment (text : string) : Sentiment :=
  let '(positiveScore, negativeScore) := scores text in
  let c := compoundOf positiveScore negativeScore in
  {| label := labelOf c;
     compound := round2 c;
     positive := positiveScore;
     negative := negativeScore |}.

(** *** Posts and signal catalogs *)

(** The catalog, as [Object.entries(PAIN_SIGNALS)]. *)
Definition PAIN_SIGNALS : list (string * list string) :=
  [ ("helpSeeking",
     [ "looking for"; "need help"; "anyone know"; "can someone";
       "how do i"; "how can i"; "is there a"; "does anyone";
       "please help"; "stuck on"; "cant figure out"; "can't figure out";
       "any advice"; "suggestions for"; "tips for"; "help me" ]);
    ("frustration",
     [ "frustrated"; "hate when"; "wish there was"; "struggling with";
       "annoyed by"; "sick of"; "tired of"; "fed up with";
       "drives me crazy"; "pain point"; "nightmare"; "worst part" ]);
    ("alternatives",
     [ "recommend"; "alternative to"; "better than"; "instead of";
       "switching from"; "moved away from"; "replacement for"; "similar to";
       "like X but"; "comparable to"; "competitor to" ]);
    ("hiring",
     [ "hiring"; "for hire"; "job"; "looking to hire";
       "need a developer"; "need a designer"; "looking for freelancer";
       "contract work"; "remote position"; "open position" ]);
    ("pricing",
     [ "too expensive"; "overpriced"; "price increase"; "pricing is";
       "cost too much"; "cheaper alternative"; "free alternative";
       "not worth the price"; "budget friendly"; "affordable option";
       "subscription fatigue"; "price hike"; "raised prices" ]);
    ("featureRequests",
     [ "wish it had"; "feature request"; "would be nice if";
       "missing feature"; "needs to add"; "should have"; "hope they add";
       "why cant"; "why can't"; "feature suggestion"; "roadmap";
       "planned feature"; "coming soon" ]);
    ("comparison",
     [ "vs"; "versus"; "compared to"; "comparison"; "which is better";
       "should i use"; "should i choose"; "or should i"; "deciding between";
       "pros and cons"; "which one"; "differences between" ]) ].

(** [Object.values(catalog).flat()]. *)
Definition allSignals (catalog : list (string * list string)) : list string :=
  concat (catalog.*2).

Definition ALL_PAIN_SIGNALS : list string := allSignals PAIN_SIGNALS.

Definition OPPORTUNITY_SIGNALS : list string :=
  [ "hiring"; "looking to hire"; "need a developer"; "need a designer";
    "looking for freelancer"; "paid gig"; "contract work"; "remote position";
    "will pay"; "budget is"; "paying"; "compensated";
    "looking for a tool"; "need a solution"; "open to suggestions" ].

(** A post as [extractPosts] builds it (the display fields [created] and
    [flair], which nothing below reads, are left out). *)
Record Post := mkPost {
  id : string;
  title : string;
  selftext : string;
  score : Z;
  numComments : Z;
  author : string;
  createdUtc : Z;
  url : string
}.

Definition extractPosts (children : list Reddit.Child) : list Post :=
  (fun c : Reddit.Child =>
     let d := Reddit.data c in
     {| id := Reddit.id d;
        title := Reddit.title d;
        selftext := default "" ((fun t => substring 0 500 t) <$> Reddit.selftext d);
        score := Reddit.score d;
        numComments := Reddit.num_comments d;
        author := Reddit.author d;
        createdUtc := Reddit.created_utc d;
        url := "https://reddit.com" +:+ Reddit.permalink d |})
  <$> filter (fun c => Reddit.kind c = "t3") children.

(** The text the matchers read: title, one space, body. *)
Definition postText (p : Post) : string := title p +:+ " " +:+ selftext p.

Definition matched (lowerText : string) (signals : list string) : list string :=
  filter (fun s => includes lowerText s) signals.

Record PainPoint := mkPainPoint {
  post : Post;
  signals : list string;
  categories : list (string * list string);
  sentiment : option Sentiment
}.

(** The loop over [Object.entries(catalog)] that fills [categories]: a
    category is entered when at least one of its signals matched. *)
Definition categoriesOf (catalog : list (string * list string)) (lowerText : string)
  : list (string * list string) :=
  omap (fun entry : string * list string =>
          let m := matched lowerText entry.2 in
          if bool_decide (0 < length m) then Some (entry.1, m) else None)
       catalog.

Definition hasSignal (signals : list string) (p : Post) : bool :=
  existsb (fun s => includes (toLowerCase (postText p)) s) signals.

Definition annotate (catalog : list (string * list string)) (includeSentiment : bool)
    (p : Post) : PainPoint :=
  let text := postText p in
  let lowerText := toLowerCase text in
  {| post := p;
     signals := matched lowerText (allSignals catalog);
     categories := categoriesOf catalog lowerText;
     sentiment := if includeSentiment then Some (analyzeSentiment text) else None |}.

(** [detectPainPoints], over any catalog. *)
Definition detectPainPointsWith (catalog : list (string * list string))
    (posts : list Post) (includeSentiment : bool) : list PainPoint :=
  annotate catalog includeSentiment
  <$> filter (fun p => hasSignal (allSignals catalog) p) posts.

Definition detectPainPoints (posts : list Post) (includeSentiment : bool)
  : list PainPoint :=
  detectPainPointsWith PAIN_SIGNALS posts includeSentiment.

Record Opportunity := mkOpportunity {
  oppPost : Post;
  oppSignals : list string
}.

Definition detectOpportunities (posts : list Post) : list Opportunity :=
  (fun p => {| oppPost := p;
               oppSignals := matched (toLowerCase (postText p)) OPPORTUNITY_SIGNALS |})
  <$> filter (fun p => hasSignal OPPORTUNITY_SIGNALS p) posts.

(** *** The daily digest *)

Record SentimentCounts := mkSentimentCounts {
  positiveCount : nat;
  negativeCount : nat;
  neutralCount : nat
}.

(** [p.sentiment?.label === l]. *)
Definition hasLabel (l : Label) (s : option Sentiment) : Prop :=
  label <$> s = Some l.

Global Instance hasLabel_dec l s : Decision (hasLabel l s).
Proof. unfold hasLabel. apply _. Defined.

Definition countLabels (sentiments : list (option Sentiment)) : SentimentCounts :=
  {| positiveCount := length (filter (hasLabel positiveL) sentiments);
     negativeCount := length (filter (hasLabel negativeL) sentiments);
     neutralCount := length (filter (hasLabel neutralL) sentiments) |}.

(** What one community adds to [allPosts], [allPainPoints] and
    [allOpportunities]: the posts of the window, tagged with the community;
    nothing when the request raises. *)
Definition digestOfSub (fetch : Reddit.Fetch) (limit : nat) (cutoff : Z) (sub : string)
  : list (string * Post) * list (string * PainPoint) * list (string * Opportunity) :=
  match fetch sub limit with
  | None => ([], [], [])
  | Some children =>
      let posts := extractPosts children in
      let recentPosts := filter (fun p => (cutoff <= createdUtc p * 1000)%Z) posts in
      (pair sub <$> recentPosts,
       pair sub <$> detectPainPoints recentPosts true,
       pair sub <$> detectOpportunities recentPosts)
  end.

(** The summary of the digest (the rankings and the per-community averages
    are computed from the same three lists and are left out). *)
Record Digest := mkDigest {
  subreddits : list string;
  totalPosts : nat;
  totalPainPoints : nat;
  totalOpportunities : nat;
  sentimentOverview : SentimentCounts
}.

(** [generateDailyDigest(subs, {hours, limit})] at the time [now], in
    milliseconds. *)
Definition generateDailyDigest (fetch : Reddit.Fetch) (now : Z)
    (subs : list string) (hours : Z) (limit : nat) : Digest :=
  let cutoff := (now - hours * 60 * 60 * 1000)%Z in
  let parts := digestOfSub fetch limit cutoff <$> subs in
  let allPosts := concat ((fun x => x.1.1) <$> parts) in
  let allPainPoints := concat ((fun x => x.1.2) <$> parts) in
  let allOpportunities := concat ((fun x => x.2) <$> parts) in
  {| subreddits := subs;
     totalPosts := length allPosts;
     totalPainPoints := length allPainPoints;
     totalOpportunities := length allOpportunities;
     sentimentOverview := countLabels ((fun pp => sentiment pp.2) <$> allPainPoints) |}.

End Scout.

(** ** scripts/notify.js *)

Module Notify.
Import JS Data.

(** The same two lists as in [scout.js]. *)
Definition POSITIVE_WORDS : list string := Scout.POSITIVE_WORDS.
Definition NEGATIVE_WORDS : list string := Scout.NEGATIVE_WORDS.

Record Sentiment := mkSentiment {
  label : Scout.Label;
  compound : Q
}.

(** The counting loops of this script: a lexicon word adds one when the
    text includes it. *)
Definition lexiconScore (lexicon : list string) (lowerText : string) : Z :=
  foldl (fun score word => if includes lowerText word then score + 1 else score)%Z
        0%Z lexicon.

Definition positiveScore (text : string) : Z :=
  lexiconScore POSITIVE_WORDS (toLowerCase text).

Definition negativeScore (text : string) : Z :=
  lexiconScore NEGATIVE_WORDS (toLowerCase text).

Definition analyzeSentiment (text : string) : Sentiment :=
  let c := Scout.compoundOf (positiveScore text) (negativeScore text) in
  {| label := Scout.labelOf c; compound := Scout.round2 c |}.

(** The text of a raw post: title, one space, body or nothing. *)
Definition rawText (p : Reddit.PostData) : string :=
  Reddit.title p +:+ " " +:+ default "" (Reddit.selftext p).

Record Match := mkMatch {
  subreddit : string;
  keywords : list string;
  title : string;
  url : string;
  author : string;
  score : Z;
  sentiment : Sentiment
}.

Definition mkMatchOf (subreddit : string) (names : list string)
    (p : Reddit.PostData) : Match :=
  {| subreddit := subreddit;
     keywords := names;
     title := substring 0 100 (Reddit.title p);
     url := "https://reddit.com" +:+ Reddit.permalink p;
     author := Reddit.author p;
     score := Reddit.score p;
     sentiment := analyzeSentiment (rawText p) |}.

(** The state of a check: the [seen] set and the matches pushed so far. *)
Definition CheckState : Type := list string * list Match.

(** The body of the loop over the posts of one community, shared by the
    two checks: [key] builds the key of a post and [names] are the keywords
    of the alert or the names of the competitors. *)
Definition checkPost (key : string -> string) (names : list string)
    (subreddit : string) (st : CheckState) (child : Reddit.Child) : CheckState :=
  let p := Reddit.data child in
  let postKey := key (Reddit.id p) in
  if setHas st.1 postKey then st
  else
    let lowerText := toLowerCase (rawText p) in
    let matchedNames := filter (fun kw => includes lowerText (toLowerCase kw)) names in
    if bool_decide (0 < length matchedNames)
    then (setAdd st.1 postKey, st.2 ++ [mkMatchOf subreddit matchedNames p])
    else st.

(** One community: nothing changes when the request raises. *)
Definition checkSubreddit (fetch : Reddit.Fetch) (limit : nat)
    (key : string -> string) (names : list string)
    (st : CheckState) (subreddit : string) : CheckState :=
  match fetch subreddit limit with
  | None => st
  | Some posts => foldl (checkPost key names subreddit) st posts
  end.

Definition alertKey (postId : string) : string := postId.
Definition competitorKey (postId : string) : string := "comp:" +:+ postId.

Definition checkAlert (fetch : Reddit.Fetch) (st : CheckState) (alert : Alert)
  : CheckState :=
  foldl (checkSubreddit fetch 25 alertKey (Data.keywords alert)) st
        (subreddits alert).

(** The loops of [checkAlerts], before the [seen] set is saved. *)
Definition checkAlertsLoop (fetch : Reddit.Fetch) (alerts : list Alert)
    (seen : list string) : CheckState :=
  foldl (checkAlert fetch) (seen, []) alerts.

Definition saveSeen (store : Store) (seen : list string) : Store :=
  {| scheduledPosts := scheduledPosts store;
     keywordAlerts := keywordAlerts store;
     postHistory := postHistory store;
     seenMatches := Some (sliceLast 1000 seen);
     competitorsFile := competitorsFile store |}.

Definition loadSeen (store : Store) : list string :=
  setOfArray (loadJSON (seenMatches store) []).

(** [checkAlerts()]: the store when it returns and the matches returned. *)
Definition checkAlerts (fetch : Reddit.Fetch) (store : Store) : Store * list Match :=
  let alerts := filter (fun a => enabled a) (loadJSON (keywordAlerts store) []) in
  let st := checkAlertsLoop fetch alerts (loadSeen store) in
  (saveSeen store st.1, st.2).

(** [checkCompetitors()]. *)
Definition checkCompetitors (fetch : Reddit.Fetch) (store : Store)
  : Store * list Match :=
  let config := loadJSON (competitorsFile store)
                  {| competitors := []; competitorSubreddits := [] |} in
  if bool_decide (competitors config = []) || bool_decide (competitorSubreddits config = [])
  then (store, [])
  else
    let st := foldl (checkSubreddit fetch 50 competitorKey (competitors config))
                    (loadSeen store, []) (competitorSubreddits config) in
    (saveSeen store st.1, st.2).

(** *** The digest of this script *)

Record DigestPost := mkDigestPost {
  dpSubreddit : string;
  dpTitle : string;
  dpScore : Z;
  dpSentiment : Sentiment
}.

Record Digest := mkDigest {
  digestSubreddits : list string;
  totalPosts : nat;
  sentimentCounts : Scout.SentimentCounts
}.

(** [[...new Set(alerts.flatMap(a => a.subreddits))]]. *)
Definition digestSubredditsOf (alerts : list Alert) : list string :=
  setOfArray (concat (subreddits <$> alerts)).

(** What one community adds to [allPosts]. *)
Definition digestPostsOf (fetch : Reddit.Fetch) (cutoff : Z) (sub : string)
  : list DigestPost :=
  match fetch sub 100 with
  | None => []
  | Some posts =>
      (fun c : Reddit.Child =>
         let p := Reddit.data c in
         {| dpSubreddit := sub;
            dpTitle := Reddit.title p;
            dpScore := Reddit.score p;
            dpSentiment := analyzeSentiment (rawText p) |})
      <$> filter (fun c => (cutoff <= Reddit.created_utc (Reddit.data c) * 1000)%Z) posts
  end.

Definition countLabels (labels : list Scout.Label) : Scout.SentimentCounts :=
  {| Scout.positiveCount := length (filter (fun l => l = Scout.positiveL) labels);
     Scout.negativeCount := length (filter (fun l => l = Scout.negativeL) labels);
     Scout.neutralCount := length (filter (fun l => l = Scout.neutralL) labels) |}.

(** [generateDigest()] at the time [now]: [None] when no enabled alert names
    a community (the ranking of the top posts is left out). *)
Definition generateDigest (fetch : Reddit.Fetch) (now : Z) (store : Store)
  : option Digest :=
  let alerts := filter (fun a => enabled a) (loadJSON (keywordAlerts store) []) in
  let subs := digestSubredditsOf alerts in
  if bool_decide (subs = []) then None
  else
    let cutoff := (now - 24 * 60 * 60 * 1000)%Z in
    let allPosts := concat (digestPostsOf fetch cutoff <$> subs) in
    Some {| digestSubreddits := subs;
            totalPosts := length allPosts;
            sentimentCounts :=
              countLabels ((fun p => label (dpSentiment p)) <$> allPosts) |}.

End Notify.

(** ** scripts/scheduler.js *)

Module Scheduler.
Import JS Data.

(** *** Scheduled posts *)

Definition saveSchedule (store : Store) (posts : list ScheduledPost) : Store :=
  {| scheduledPosts := Some posts;
     keywordAlerts := keywordAlerts store;
     postHistory := postHistory store;
     seenMatches := seenMatches store;
     competitorsFile := competitorsFile store |}.

Definition saveHistory (store : Store) (history : list ScheduledPost) : Store :=
  {| scheduledPosts := scheduledPosts store;
     keywordAlerts := keywordAlerts store;
     postHistory := Some history;
     seenMatches := seenMatches store;
     competitorsFile := competitorsFile store |}.

Definition saveAlerts (store : Store) (alerts : list Alert) : Store :=
  {| scheduledPosts := scheduledPosts store;
     keywordAlerts := Some alerts;
     postHistory := postHistory store;
     seenMatches := seenMatches store;
     competitorsFile := competitorsFile store |}.

Record Options := mkOptions {
  optFlair : option string;
  optNsfw : bool;
  optSpoiler : bool
}.

(** [value || null] on an optional string: the empty string is falsy. *)
Definition truthy (v : option string) : option string :=
  match v with
  | Some EmptyString => None
  | _ => v
  end.

(** [addScheduledPost]: [newId] is what [generateId()] returns, [now] the
    clock, and [scheduledTime] is [None] for a text that is no date, on
    which [toISOString] raises before anything is saved. *)
Definition addScheduledPost (newId : string) (now : Time) (store : Store)
    (subreddit title content : string) (scheduledTime : option Time)
    (options : Options) : Store * option ScheduledPost :=
  let posts := loadJSON (scheduledPosts store) [] in
  match scheduledTime with
  | None => (store, None)
  | Some t =>
      let post :=
        {| id := newId; subreddit := subreddit; title := title;
           content := content; scheduledTime := t; createdAt := now;
           status := pending; flair := truthy (optFlair options);
           nsfw := optNsfw options; spoiler := optSpoiler options;
           cancelledAt := None; postedAt := None; redditUrl := None |} in
      (saveSchedule store (posts ++ [post]), Some post)
  end.

(** [listScheduledPosts(filter)]: [None] stands for ['all']. *)
Definition listScheduledPosts (store : Store) (filterBy : option Status)
  : list ScheduledPost :=
  let posts := loadJSON (scheduledPosts store) [] in
  match filterBy with
  | None => posts
  | Some st => filter (fun p => status p = st) posts
  end.

(** [posts.findIndex(p => p.id === id)]. *)
Definition findPost (posts : list ScheduledPost) (postId : string) : option nat :=
  fst <$> list_find (fun p => id p = postId) posts.

Definition cancelled_at (now : Time) (p : ScheduledPost) : ScheduledPost :=
  {| id := id p; subreddit := subreddit p; title := title p;
     content := content p; scheduledTime := scheduledTime p;
     createdAt := createdAt p; status := cancelled; flair := flair p;
     nsfw := nsfw p; spoiler := spoiler p;
     cancelledAt := Some now; postedAt := postedAt p;
     redditUrl := redditUrl p |}.

Definition cancelPost (now : Time) (store : Store) (postId : string)
  : Store * option ScheduledPost :=
  let posts := loadJSON (scheduledPosts store) [] in
  match findPost posts postId with
  | None => (store, None)
  | Some idx =>
      let posts' := alter (cancelled_at now) idx posts in
      (saveSchedule store posts', posts' !! idx)
  end.

Definition getDuePosts (now : Time) (store : Store) : list ScheduledPost :=
  let posts := loadJSON (scheduledPosts store) [] in
  filter (fun p => status p = pending ∧ (scheduledTime p <= now)%Z) posts.

Definition posted_at (now : Time) (url : option string) (p : ScheduledPost)
  : ScheduledPost :=
  {| id := id p; subreddit := subreddit p; title := title p;
     content := content p; scheduledTime := scheduledTime p;
     createdAt := createdAt p; status := posted; flair := flair p;
     nsfw := nsfw p; spoiler := spoiler p;
     cancelledAt := cancelledAt p; postedAt := Some now;
     redditUrl := match truthy url with
                  | Some u => Some u
                  | None => redditUrl p
                  end |}.

Definition markPosted (now : Time) (store : Store) (postId : string)
    (url : option string) : Store * option ScheduledPost :=
  let posts := loadJSON (scheduledPosts store) [] in
  match findPost posts postId with
  | None => (store, None)
  | Some idx =>
      let posts' := alter (posted_at now url) idx posts in
      let store' := saveSchedule store posts' in
      let history := loadJSON (postHistory store') [] in
      (saveHistory store' (history ++ option_list (posts' !! idx)), posts' !! idx)
  end.

(** *** Keyword alerts *)

Definition addKeywordAlert (newId : string) (now : Time) (store : Store)
    (keywords subreddits : list string) (via : option string)
  : Store * Alert :=
  let alerts := loadJSON (keywordAlerts store) [] in
  let alert :=
    {| alertId := newId; keywords := keywords; subreddits := subreddits;
       alertCreatedAt := now; enabled := true;
       notifyVia := default "console" (truthy via);
       lastChecked := None; matchCount := 0 |} in
  (saveAlerts store (alerts ++ [alert]), alert).

Definition listAlerts (store : Store) (enabledOnly : bool) : list Alert :=
  let alerts := loadJSON (keywordAlerts store) [] in
  if enabledOnly then filter (fun a => enabled a) alerts else alerts.

Definition findAlert (alerts : list Alert) (anId : string) : option nat :=
  fst <$> list_find (fun a => alertId a = anId) alerts.

Definition enabled_as (flag : bool) (a : Alert) : Alert :=
  {| alertId := alertId a; keywords := keywords a; subreddits := subreddits a;
     alertCreatedAt := alertCreatedAt a; enabled := flag;
     notifyVia := notifyVia a; lastChecked := lastChecked a;
     matchCount := matchCount a |}.

Definition toggleAlert (store : Store) (anId : string) (flag : bool)
  : Store * option Alert :=
  let alerts := loadJSON (keywordAlerts store) [] in
  match findAlert alerts anId with
  | None => (store, None)
  | Some idx =>
      let alerts' := alter (enabled_as flag) idx alerts in
      (saveAlerts store alerts', alerts' !! idx)
  end.

Definition removeAlert (store : Store) (anId : string) : Store * bool :=
  let alerts := loadJSON (keywordAlerts store) [] in
  let filtered := filter (fun a => alertId a ≠ anId) alerts in
  (saveAlerts store filtered, bool_decide (length filtered < length alerts)).

(** *** The check cycle of this script *)

Record MatchedPost := mkMatchedPost {
  mpId : string;
  mpTitle : string;
  mpUrl : string;
  mpAuthor : string;
  mpCreated : Time;
  mpScore : Z
}.

Record Match := mkMatch {
  matchAlertId : string;
  matchKeywords : list string;
  matchSubreddit : string;
  matchPost : MatchedPost
}.

(** The body of the loop over the posts of a community: a post with at
    least one keyword in its text is pushed. *)
Definition matchOfPost (alert : Alert) (subreddit : string) (child : Reddit.Child)
  : option Match :=
  let p := Reddit.data child in
  let text := toLowerCase (Reddit.title p +:+ " " +:+ default "" (Reddit.selftext p)) in
  let matchedKeywords :=
    filter (fun kw => includes text (toLowerCase kw)) (keywords alert) in
  if bool_decide (0 < length matchedKeywords) then
    Some {| matchAlertId := alertId alert;
            matchKeywords := matchedKeywords;
            matchSubreddit := subreddit;
            matchPost :=
              {| mpId := Reddit.id p; mpTitle := Reddit.title p;
                 mpUrl := "https://reddit.com" +:+ Reddit.permalink p;
                 mpAuthor := Reddit.author p;
                 mpCreated := (Reddit.created_utc p * 1000)%Z;
                 mpScore := Reddit.score p |} |}
  else None.

(** What one community pushes; nothing when the request fails or raises. *)
Definition matchesOfSubreddit (fetch : Reddit.Fetch) (alert : Alert)
    (subreddit : string) : list Match :=
  match fetch subreddit 25 with
  | None => []
  | Some posts => omap (matchOfPost alert subreddit) posts
  end.

Definition matchesOfAlert (fetch : Reddit.Fetch) (alert : Alert) : list Match :=
  subreddits alert ≫= matchesOfSubreddit fetch alert.

(** The update that ends the turn of an alert. *)
Definition checked_at (now : Time) (found : nat) (a : Alert) : Alert :=
  {| alertId := alertId a; keywords := keywords a; subreddits := subreddits a;
     alertCreatedAt := alertCreatedAt a; enabled := enabled a;
     notifyVia := notifyVia a; lastChecked := Some now;
     matchCount := matchCount a + found |}.

(** The turn of one enabled alert on the state [(alerts, matches)].  The
    elements of [enabledAlerts] are the objects of [alerts]; the turn reads
    their [id], [keywords] and [subreddits], which no turn writes. *)
Definition checkAlert (fetch : Reddit.Fetch) (now : Time)
    (st : list Alert * list Match) (alert : Alert) : list Alert * list Match :=
  let matches := st.2 ++ matchesOfAlert fetch alert in
  let found := length (filter (fun m => matchAlertId m = alertId alert) matches) in
  let alerts :=
    match findAlert st.1 (alertId alert) with
    | Some idx => alter (checked_at now found) idx st.1
    | None => st.1
    end in
  (alerts, matches).

(** The loop over the enabled alerts; [clock k] is the time read at the end
    of the turn of the [k]-th of them. *)
Fixpoint checkLoop (fetch : Reddit.Fetch) (clock : nat -> Time) (k : nat)
    (enabledAlerts : list Alert) (st : list Alert * list Match)
  : list Alert * list Match :=
  match enabledAlerts with
  | [] => st
  | alert :: rest =>
      checkLoop fetch clock (S k) rest (checkAlert fetch (clock k) st alert)
  end.

Record CheckResult := mkCheckResult {
  checked : nat;
  matches : list Match
}.

Definition checkAlerts (fetch : Reddit.Fetch) (clock : nat -> Time) (store : Store)
  : Store * CheckResult :=
  let alerts := loadJSON (keywordAlerts store) [] in
  let enabledAlerts := filter (fun a => enabled a) alerts in
  if bool_decide (length enabledAlerts = 0) then
    (store, {| checked := 0; matches := [] |})
  else
    let st := checkLoop fetch clock 0 enabledAlerts (alerts, []) in
    (saveAlerts store st.1,
     {| checked := length enabledAlerts; matches := st.2 |}).

(** *** The operations on scheduled posts, as a transition system *)

Inductive Op :=
| OpAdd (newId subreddit title content : string) (scheduledTime : option Time)
        (options : Options)
| OpCancel (postId : string)
| OpMarkPosted (postId : string) (url : option string)
| OpGetDue.

(** One command at the time [now]. *)
Definition step (now : Time) (store : Store) (op : Op) : Store :=
  match op with
  | OpAdd newId sub t c time options =>
      (addScheduledPost newId now store sub t c time options).1
  | OpCancel postId => (cancelPost now store postId).1
  | OpMarkPosted postId url => (markPosted now store postId url).1
  | OpGetDue => store
  end.


End Scheduler.

(** ** Notions used in the statements *)

Module Notions.
Import JS.

(** [s.repeat(k)]. *)
Fixpoint repeatString (s : string) (k : nat) : string :=
  match k with
  | O => EmptyString
  | S k' => s +:+ repeatString s k'
  end.

(** Whether a word begins with a word character, as every word of the two
    lexicons does. *)
Definition startsWithWordChar (w : string) : bool :=
  match w with
  | EmptyString => false
  | String c _ => isWordChar c
  end.

(** Whether the character before the position that ends [pre] is a word
    character; [prev] answers for the start of the text. *)
Fixpoint wordCharBefore (prev : bool) (pre : string) : bool :=
  match pre with
  | EmptyString => prev
  | String c r => wordCharBefore (isWordChar c) r
  end.

(** The loops of a check of [notify.js], flattened: one item for every post
    that the check meets, with the names it is matched against and its
    community, in the order of the loops. *)
Definition Item : Type := list string * string * Reddit.Child.

Definition itemsOfSub (fetch : Reddit.Fetch) (limit : nat) (names : list string)
    (sub : string) : list Item :=
  match fetch sub limit with
  | None => []
  | Some posts => (fun c => (names, sub, c)) <$> posts
  end.

Definition itemsOfAlert (fetch : Reddit.Fetch) (a : Data.Alert) : list Item :=
  Data.subreddits a ≫= itemsOfSub fetch 25 (Data.keywords a).

Definition itemsOfAlerts (fetch : Reddit.Fetch) (alerts : list Data.Alert)
  : list Item :=
  alerts ≫= itemsOfAlert fetch.

Definition checkItem (key : string -> string) (st : Notify.CheckState) (it : Item)
  : Notify.CheckState :=
  Notify.checkPost key it.1.1 it.1.2 st it.2.

(** The names found in the text of the post of an item, its key and the
    match record that is pushed for it. *)
Definition itemNames (it : Item) : list string :=
  filter (fun kw => includes (toLowerCase (Notify.rawText (Reddit.data it.2)))
                             (toLowerCase kw)) it.1.1.

Definition itemKey (key : string -> string) (it : Item) : string :=
  key (Reddit.id (Reddit.data it.2)).

Definition itemMatch (it : Item) : Notify.Match :=
  Notify.mkMatchOf it.1.2 (itemNames it) (Reddit.data it.2).

(** What a cycle of [notify.js] does on a store: its matches are those of
    a selection [emitted] of the items, in their order; the key of an
    emitted item is not in the set loaded at the start, its text has a
    name, and no two emitted items have one key; the set that is saved is
    the loaded one followed by the emitted keys, cut to its last 1000; the
    alerts are as before; and when nothing is cut a second cycle emits
    nothing and leaves the store as the first left it. *)
Definition NotifyCycle (fetch : Reddit.Fetch) (store : Data.Store) : Prop :=
  let seen := Notify.loadSeen store in
  let r := Notify.checkAlerts fetch store in
  exists emitted : list Item,
    emitted `sublist_of`
      itemsOfAlerts fetch (filter (fun a => Data.enabled a)
                                  (loadJSON (Data.keywordAlerts store) []))
    /\ r.2 = itemMatch <$> emitted
    /\ (forall it, it ∈ emitted ->
          (itemKey Notify.alertKey it ∉ seen) /\ itemNames it <> [])
    /\ NoDup (itemKey Notify.alertKey <$> emitted)
    /\ Data.seenMatches r.1
       = Some (sliceLast 1000 (seen ++ (itemKey Notify.alertKey <$> emitted)))
    /\ Data.keywordAlerts r.1 = Data.keywordAlerts store
    /\ (length (seen ++ (itemKey Notify.alertKey <$> emitted)) <= 1000 ->
        Notify.checkAlerts fetch r.1 = (r.1, [])).





(** The end-to-end scenario: one alert on one community, where one new post
    asks for an alternative. *)
Definition crmPost : Reddit.Child :=
  {| Reddit.kind := "t3";
     Reddit.data :=
       {| Reddit.id := "p1"; Reddit.title := "Looking for a CRM alternative";
          Reddit.selftext := Some ""; Reddit.score := 3; Reddit.num_comments := 1;
          Reddit.author := "founder"; Reddit.created_utc := 1700000000;
          Reddit.permalink := "/r/SaaS/comments/p1" |} |}.

Definition crmFetch : Reddit.Fetch :=
  fun sub _ => if bool_decide (sub = "SaaS") then Some [crmPost] else None.

Definition crmAlert : Data.Alert :=
  {| Data.alertId := "a1"; Data.keywords := ["looking for"; "need help"];
     Data.subreddits := ["SaaS"]; Data.alertCreatedAt := 0%Z; Data.enabled := true;
     Data.notifyVia := "console"; Data.lastChecked := None; Data.matchCount := 0 |}.

Definition crmStore : Data.Store :=
  {| Data.scheduledPosts := None; Data.keywordAlerts := Some [crmAlert];
     Data.postHistory := None; Data.seenMatches := None;
     Data.competitorsFile := None |}.

(** A store with one scheduled post and one alert. *)
Definition launchStore : Data.Store :=
  {| Data.scheduledPosts :=
       Some [ {| Data.id := "x1"; Data.subreddit := "SaaS"; Data.title := "Launch";
                 Data.content := "Text"; Data.scheduledTime := 100%Z;
                 Data.createdAt := 1%Z; Data.status := Data.pending;
                 Data.flair := None; Data.nsfw := false; Data.spoiler := false;
                 Data.cancelledAt := None; Data.postedAt := None;
                 Data.redditUrl := None |} ];
     Data.keywordAlerts := Some [crmAlert];
     Data.postHistory := None; Data.seenMatches := Some ["p0"];
     Data.competitorsFile := None |}.

(** The posts of the window of a digest of [scout.js], community after
    community. *)
Definition windowPosts (fetch : Reddit.Fetch) (limit : nat) (cutoff : Z)
    (subs : list string) : list Scout.Post :=
  subs ≫= (fun sub =>
    match fetch sub limit with
    | None => []
    | Some children =>
        filter (fun p => (cutoff <= Scout.createdUtc p * 1000)%Z)
               (Scout.extractPosts children)
    end).

Definition total (c : Scout.SentimentCounts) : nat :=
  Scout.positiveCount c + Scout.negativeCount c + Scout.neutralCount c.

(** A post of the window with a positive word and no pain signal. *)
Definition praisePost : Reddit.Child :=
  {| Reddit.kind := "t3";
     Reddit.data :=
       {| Reddit.id := "p2"; Reddit.title := "I love this tool";
          Reddit.selftext := Some "It is great"; Reddit.score := 9;
          Reddit.num_comments := 0; Reddit.author := "fan";
          Reddit.created_utc := 1700000000;
          Reddit.permalink := "/r/SaaS/comments/p2" |} |}.

Definition praiseFetch : Reddit.Fetch :=
  fun sub _ => if bool_decide (sub = "SaaS") then Some [praisePost] else None.

(** [w] occurs in [s] as a substring. *)
Definition substringOf (w s : string) : Prop :=
  exists pre post, s = pre +:+ w +:+ post.

End Notions.

(** ** More of the JavaScript primitives *)

Module JSArray.

(** One step of a stable sort: [x], which stood before every element of
    [l], goes after the elements that the comparator puts strictly before
    it. *)
Fixpoint insertWith {A} (cmp : A -> A -> Z) (x : A) (l : list A) : list A :=
  match l with
  | [] => [x]
  | y :: r => if (0 <? cmp x y)%Z then y :: insertWith cmp x r else x :: y :: r
  end.

(** [array.sort(cmp)] for a comparator that is a difference of integer
    keys.  The sort of the language is stable, and the order that a stable
    sort gives under such a comparator is unique; it is computed here by
    insertion. *)
Fixpoint sortWith {A} (cmp : A -> A -> Z) (l : list A) : list A :=
  match l with
  | [] => []
  | x :: r => insertWith cmp x (sortWith cmp r)
  end.

(** [(a, b) => key(b) - key(a)]. *)
Definition descending {A} (key : A -> Z) (a b : A) : Z := (key b - key a)%Z.

(** [array.join(sep)] on strings. *)
Fixpoint join (sep : string) (l : list string) : string :=
  match l with
  | [] => EmptyString
  | [x] => x
  | x :: r => x +:+ sep +:+ join sep r
  end.

End JSArray.

(** ** scripts/scout.js: scans *)

Module Scan.
Import JS JSArray.

(** The listing of a community under a sort order and a page size, or the
    message of the error that [fetchReddit] raises. *)
Definition Fetch := string -> string -> nat -> string + list Reddit.Child.

Definition findTrending (posts : list Scout.Post) (threshold : Z) : list Scout.Post :=
  sortWith (descending Scout.score)
    (filter (fun p => (threshold <= Scout.score p)%Z \/ (20 <= Scout.numComments p)%Z)
            posts).

Record Options := mkOptions {
  limit : option nat;
  sort : option string;
  includeSentiment : option bool
}.

(** The result of [scanSubreddit] (its time stamp is left out). *)
Record ScanResult := mkScanResult {
  subreddit : string;
  total : nat;
  posts : list Scout.Post;
  painPoints : list Scout.PainPoint;
  opportunities : list Scout.Opportunity;
  trending : list Scout.Post
}.

(** [scanSubreddit(subreddit, options)]: the error message when the
    request raises. *)
Definition scanSubreddit (fetch : Fetch) (sub : string) (options : Options)
  : string + ScanResult :=
  match fetch sub (default "hot" (sort options)) (default 25 (limit options)) with
  | inl message => inl message
  | inr children =>
      let posts := Scout.extractPosts children in
      inr {| subreddit := sub;
             total := length posts;
             posts := posts;
             painPoints :=
               Scout.detectPainPoints posts (default true (includeSentiment options));
             opportunities := Scout.detectOpportunities posts;
             trending := findTrending posts 50 |}
  end.

(** An element of [results] in [multiScan]. *)
Inductive Entry :=
| Scanned (result : ScanResult)
| Failed (subreddit : string) (error : string).

Definition entrySubreddit (e : Entry) : string :=
  match e with
  | Scanned r => subreddit r
  | Failed sub _ => sub
  end.

Definition scanEntry (fetch : Fetch) (options : Options) (sub : string) : Entry :=
  match scanSubreddit fetch sub options with
  | inr result => Scanned result
  | inl message => Failed sub message
  end.

(** [results.flatMap(r => (r.field || []).map(p => ({ ...p, subreddit })))]. *)
Definition tagged {A} (field : ScanResult -> list A) (results : list Entry)
  : list (string * A) :=
  results ≫= (fun e =>
    match e with
    | Scanned r => pair (subreddit r) <$> field r
    | Failed _ _ => []
    end).

Record Aggregated := mkAggregated {
  aggPainPoints : list (string * Scout.PainPoint);
  aggOpportunities : list (string * Scout.Opportunity);
  aggTrending : list (string * Scout.Post);
  sentimentSummary : Scout.SentimentCounts
}.

Record MultiScan := mkMultiScan {
  subreddits : list string;
  results : list Entry;
  aggregated : Aggregated
}.

(** [multiScan(subreddits, options)], on the names that the split of the
    argument gives. *)
Definition multiScan (fetch : Fetch) (subs : list string) (options : Options)
  : MultiScan :=
  let results := scanEntry fetch options <$> subs in
  let allPainPoints := tagged painPoints results in
  let allOpportunities := tagged opportunities results in
  let allTrending := tagged trending results in
  {| subreddits := subs;
     results := results;
     aggregated :=
       {| aggPainPoints :=
            take 20 (sortWith (descending (fun p => Scout.score (Scout.post p.2)))
                              allPainPoints);
          aggOpportunities :=
            take 20 (sortWith (descending (fun p => Scout.score (Scout.oppPost p.2)))
                              allOpportunities);
          aggTrending :=
            take 20 (sortWith (descending (fun p => Scout.score p.2)) allTrending);
          sentimentSummary :=
            Scout.countLabels ((fun p => Scout.sentiment p.2) <$> allPainPoints) |} |}.

End Scan.

(** ** Further notions used in the statements *)

Module Terms.
Import JS.

(** [top] holds the first [n] elements at most of [all] in a descending order
    of [key]: it is in descending order, and what it leaves out of [all] has
    keys that are not above any of its keys. *)
Definition topBy {A} (key : A -> Z) (n : nat) (all top : list A) : Prop :=
  length top <= n
  /\ StronglySorted (fun a b => (key b <= key a)%Z) top
  /\ exists rest, all ≡ₚ top ++ rest
                  /\ (forall x y, x ∈ top -> y ∈ rest -> (key y <= key x)%Z).

(** The depths of a flattened thread: [climbs prev ds] when every depth is
    at most one more than the depth before it, [prev] standing before the
    first. *)
Fixpoint climbs (prev : nat) (ds : list nat) : Prop :=
  match ds with
  | [] => True
  | d :: r => d <= S prev /\ climbs d r
  end.

(** The depths of the comments of a listing at the depth [d]: none is
    above [d] in the tree, the first one is at [d], and they climb. *)
Definition nestedFrom (d : nat) (ds : list nat) : Prop :=
  Forall (fun x => d <= x) ds
  /\ match ds with
     | [] => True
     | x :: r => x = d /\ climbs d r
     end.

(** A text without comma, double quote and line feed. *)
Definition plain (s : string) : Prop :=
  JS.includes s "," = false
  /\ JS.includes s (String "034" EmptyString) = false
  /\ JS.includes s (String "010" EmptyString) = false.

End Terms.

(** ** String primitives of the command line and of the exports *)

Module JSString.
Import JS.

(** [s.split(sep)] for a separator of one character: the pieces between
    the separators, one piece more than there are separators. *)
Fixpoint split (sep : ascii) (s : string) : list string :=
  match s with
  | EmptyString => [EmptyString]
  | String c r =>
      if decide (c = sep) then EmptyString :: split sep r
      else match split sep r with
           | [] => [String c EmptyString]
           | p :: ps => String c p :: ps
           end
  end.

(** [s.trimStart()], [s.trimEnd()] and [s.trim()], on ASCII white space. *)
Fixpoint trimStart (s : string) : string :=
  match s with
  | EmptyString => EmptyString
  | String c r => if isSpace c then trimStart r else s
  end.

Fixpoint trimEnd (s : string) : string :=
  match s with
  | EmptyString => EmptyString
  | String c r =>
      match trimEnd r with
      | EmptyString => if isSpace c then EmptyString else String c EmptyString
      | r' => String c r'
      end
  end.

Definition trim (s : string) : string := trimEnd (trimStart s).

(** [text.split(',').map(s => s.trim())], the reading of a list given on
    the command line. *)
Definition parseList (text : string) : list string :=
  trim <$> split "," text.

End JSString.

(** ** scripts/scheduler.js: alerts given as text *)

Module SchedulerCli.
Import JS JSString Data.

(** [addKeywordAlert(keywords, subreddits)] on the two texts of the
    command line, which it splits at the commas. *)
Definition addKeywordAlert (newId : string) (now : Time) (store : Store)
    (keywords subreddits : string) : Store * Alert :=
  Scheduler.addKeywordAlert newId now store (parseList keywords)
                            (parseList subreddits) None.

End SchedulerCli.

(** ** scripts/scout.js: threads *)

Module Thread.
Import JS.

(** The fields of [child.data] of a comment that are read. *)
Record CommentData := mkCommentData {
  id : string;
  author : string;
  body : option string;
  score : Z;
  created_utc : Z
}.

(** A child of a comment listing: its kind, its data and the children of
    its replies, [None] when [replies.data.children] is absent. *)
#[warnings="-register-all"]
Inductive Thing :=
| mkThing (kind : string) (data : CommentData) (replies : option (list Thing)).

Record Comment := mkComment {
  cId : string;
  cAuthor : string;
  cBody : option string;
  cScore : Z;
  depth : nat;
  created : Z;
  sentiment : Scout.Sentiment
}.

Definition commentOf (depth : nat) (c : CommentData) : Comment :=
  {| cId := id c;
     cAuthor := author c;
     cBody := (fun b => substring 0 1000 b) <$> body c;
     cScore := score c;
     depth := depth;
     created := (created_utc c * 1000)%Z;
     sentiment := Scout.analyzeSentiment (default EmptyString (body c)) |}.

Definition thingKind (t : Thing) : string :=
  match t with mkThing kind _ _ => kind end.

Definition thingData (t : Thing) : CommentData :=
  match t with mkThing _ c _ => c end.

(** One turn of the loop of [extractComments]: a child of another kind is
    passed over with all its replies; a comment is pushed, followed by the
    comments of its replies, one level deeper. *)
Fixpoint extractComment (depth : nat) (t : Thing) : list Comment :=
  match t with
  | mkThing kind c replies =>
      if decide (kind = "t1") then
        commentOf depth c
        :: match replies with
           | Some children =>
               (fix go (l : list Thing) : list Comment :=
                  match l with
                  | [] => []
                  | x :: r => extractComment (S depth) x ++ go r
                  end) children
           | None => []
           end
      else []
  end.

Definition extractComments (children : list Thing) (depth : nat) : list Comment :=
  children ≫= extractComment depth.

(** Induction on a thing, with the property for all its replies at hand. *)
Section Thing_induction.
Variable P : Thing -> Prop.
Hypothesis step : forall kind c replies,
  Forall P (default [] replies) -> P (mkThing kind c replies).

Fixpoint Thing_nested_ind (t : Thing) : P t :=
  match t with
  | mkThing kind c replies =>
      step kind c replies
        match replies return Forall P (default [] replies) with
        | Some children =>
            (fix go (l : list Thing) : Forall P l :=
               match l with
               | [] => List.Forall_nil P
               | x :: r => @List.Forall_cons _ P x r (Thing_nested_ind x) (go r)
               end) children
        | None => List.Forall_nil P
        end
  end.
End Thing_induction.

End Thread.

(** ** scripts/scout.js: the CSV export *)

Module Csv.
Import JS JSArray.

Definition quote : ascii := "034"%char.
Definition newline : ascii := "010"%char.

(** A value read from a record, as far as [toCSV] tells values apart:
    null, undefined, an object or array with the text that
    [JSON.stringify] gives for it, or any other value with the text that
    [String] gives for it. *)
Inductive Value :=
| VNull
| VUndefined
| VObject (json : string)
| VOther (str : string).

(** A record: its own keys in their order ([Object.keys]) and the value
    read at a property name ([item[h]]). *)
Record Item := mkItem {
  keys : list string;
  prop : string -> Value
}.

(** The text of a value before it is escaped. *)
Definition text (v : Value) : string :=
  match v with
  | VNull | VUndefined => EmptyString
  | VObject json => json
  | VOther str => str
  end.

(** The value with every double quote doubled (the [replace] of
    [escapeField]). *)
Fixpoint doubleQuotes (s : string) : string :=
  match s with
  | EmptyString => EmptyString
  | String c r =>
      if decide (c = quote) then String quote (String quote (doubleQuotes r))
      else String c (doubleQuotes r)
  end.

(** What the callback of [headers.map] makes of the text of a value. *)
Definition escapeField (v : string) : string :=
  let val := doubleQuotes v in
  if includes val "," || includes val (String quote EmptyString)
     || includes val (String newline EmptyString)
  then String quote (val +:+ String quote EmptyString)
  else val.

Definition row (headers : list string) (item : Item) : string :=
  join "," ((fun h => escapeField (text (prop item h))) <$> headers).

(** The array [rows] of [toCSV] for data that are not empty. *)
Definition rows (headers : list string) (data : list Item) : list string :=
  join "," headers :: (row headers <$> data).

(** [toCSV(data, fields)]; [fields] is [None] when it is not given. *)
Definition toCSV (data : list Item) (fields : option (list string)) : string :=
  match data with
  | [] => EmptyString
  | first :: _ =>
      join (String newline EmptyString) (rows (default (keys first) fields) data)
  end.

End Csv.

(** ** scripts/scout.js: competitors *)

Module Competitors.
Import JS JSArray JSString.

(** [s.indexOf(w)]; [None] stands for -1. *)
Fixpoint indexOf (s w : string) : option nat :=
  match s with
  | EmptyString => if startsWith s w then Some 0 else None
  | String _ r => if startsWith s w then Some 0 else S <$> indexOf r w
  end.

(** [s.slice(start, end)] for [0 <= start <= end <= s.length]. *)
Definition slice (s : string) (first last : nat) : string :=
  substring first (last - first) s.

Definition extractCompetitorContext (text : string) (competitors : list string)
  : list string :=
  omap (fun comp =>
          (fun idx =>
             "..." +:+ slice text (idx - 30)
                             (String.length text `min` (idx + String.length comp + 30))
                   +:+ "...")
          <$> indexOf text comp)
       competitors.

Record Mention := mkMention {
  post : Scout.Post;
  subreddit : string;
  competitors : list string;
  sentiment : Scout.Sentiment;
  context : list string
}.

Definition mentionOf (competitorList : list string) (sub : string) (p : Scout.Post)
  : option Mention :=
  let text := toLowerCase (Scout.postText p) in
  let matchedCompetitors := filter (fun c => includes text c) competitorList in
  if bool_decide (0 < length matchedCompetitors) then
    Some {| post := p; subreddit := sub; competitors := matchedCompetitors;
            sentiment := Scout.analyzeSentiment (Scout.postText p);
            context := extractCompetitorContext text matchedCompetitors |}
  else None.

(** What one community adds to [mentions]; nothing when the request
    raises. *)
Definition mentionsOfSub (fetch : Reddit.Fetch) (limit : nat)
    (competitorList : list string) (sub : string) : list Mention :=
  match fetch sub limit with
  | None => []
  | Some children => omap (mentionOf competitorList sub) (Scout.extractPosts children)
  end.

(** The names and the communities that [trackCompetitors] reads from its
    two texts, and its mentions before and after they are sorted (the
    groupings by competitor are left out). *)
Definition competitorListOf (competitors : string) : list string :=
  (fun c => toLowerCase (trim c)) <$> split "," competitors.

Definition allMentions (fetch : Reddit.Fetch) (competitors subreddits : string)
    (limit : nat) : list Mention :=
  parseList subreddits ≫= mentionsOfSub fetch limit (competitorListOf competitors).

Record Tracked := mkTracked {
  trackedCompetitors : list string;
  trackedSubreddits : list string;
  totalMentions : nat;
  mentions : list Mention
}.

Definition trackCompetitors (fetch : Reddit.Fetch) (competitors subreddits : string)
    (limit : nat) : Tracked :=
  let all := allMentions fetch competitors subreddits limit in
  {| trackedCompetitors := competitorListOf competitors;
     trackedSubreddits := parseList subreddits;
     totalMentions := length all;
     mentions := sortWith (descending (fun m => Scout.score (post m))) all |}.

End Competitors.

(** ** scripts/scout.js: the rest of the daily digest *)

Module DailyDigest.
Import JS JSArray.

(** [categoryBreakdown[cat] = (categoryBreakdown[cat] || 0) + 1] on the
    entries of the object: the count of a present key goes up by one in
    place, a new key is entered last with the count 1. *)
Fixpoint bump (breakdown : list (string * nat)) (cat : string) : list (string * nat) :=
  match breakdown with
  | [] => [(cat, 1)]
  | (k, n) :: r => if decide (k = cat) then (k, S n) :: r else (k, n) :: bump r cat
  end.

(** [breakdown[cat]]; [None] is undefined. *)
Fixpoint get (breakdown : list (string * nat)) (cat : string) : option nat :=
  match breakdown with
  | [] => None
  | (k, n) :: r => if decide (k = cat) then Some n else get r cat
  end.

(** The two loops that fill [categoryBreakdown]; [Object.keys] of the
    categories of a pain point are the first components of its entries. *)
Definition categoryBreakdown (allPainPoints : list (string * Scout.PainPoint))
  : list (string * nat) :=
  foldl (fun acc pp => foldl bump acc (Scout.categories pp.2).*1) [] allPainPoints.

Record SubredditStats := mkSubredditStats {
  posts : nat;
  totalScore : Z;
  avgScore : Z;
  painPoints : nat;
  opportunities : nat
}.

(** The entry that the last loop writes at [subredditStats[sub]]. *)
Definition statsOf (allPosts : list (string * Scout.Post))
    (allPainPoints : list (string * Scout.PainPoint))
    (allOpportunities : list (string * Scout.Opportunity)) (sub : string)
  : SubredditStats :=
  let subPosts := filter (fun p => p.1 = sub) allPosts in
  let total := foldl (fun sum p => (sum + Scout.score p.2)%Z) 0%Z subPosts in
  {| posts := length subPosts;
     totalScore := total;
     avgScore :=
       mathRound (inject_Z total
                  / inject_Z (Z.of_nat (if decide (length subPosts = 0) then 1
                                        else length subPosts)));
     painPoints := length (filter (fun p => p.1 = sub) allPainPoints);
     opportunities := length (filter (fun p => p.1 = sub) allOpportunities) |}.

(** The three lists that the loop over the communities collects, each
    entry with the community it is tagged with. *)
Definition collected (fetch : Reddit.Fetch) (now : Z) (subs : list string)
    (hours : Z) (limit : nat)
  : list (string * Scout.Post) * list (string * Scout.PainPoint)
    * list (string * Scout.Opportunity) :=
  let cutoff := (now - hours * 60 * 60 * 1000)%Z in
  let parts := Scout.digestOfSub fetch limit cutoff <$> subs in
  (concat ((fun x => x.1.1) <$> parts),
   concat ((fun x => x.1.2) <$> parts),
   concat ((fun x => x.2) <$> parts)).

(** [summary.categoryBreakdown] and [subredditStats[sub]] of the digest. *)
Definition digestCategoryBreakdown (fetch : Reddit.Fetch) (now : Z)
    (subs : list string) (hours : Z) (limit : nat) : list (string * nat) :=
  categoryBreakdown (collected fetch now subs hours limit).1.2.

(** The engagement that [topPosts] is ranked by; [allPosts] has been
    sorted by it in place when the statistics are computed. *)
Definition engagement (p : string * Scout.Post) : Z :=
  (Scout.score p.2 + Scout.numComments p.2 * 2)%Z.

Definition digestStatsOf (fetch : Reddit.Fetch) (now : Z)
    (subs : list string) (hours : Z) (limit : nat) (sub : string) : SubredditStats :=
  let c := collected fetch now subs hours limit in
  statsOf (sortWith (descending engagement) c.1.1) c.1.2 c.2 sub.

End DailyDigest.

(** * Properties *)

Import JS Notions.

(** ** Text primitives *)

Lemma append_nil_str (s : string) : EmptyString +:+ s = s.
Proof. reflexivity. Qed.

Lemma append_cons_str (c : ascii) (a b : string) :
  String c a +:+ b = String c (a +:+ b).
Proof. reflexivity. Qed.

(** Push the appends of a goal or of a hypothesis below the constructors. *)
Ltac str_norm := rewrite ?append_cons_str, ?append_nil_str.
Tactic Notation "str_norm" "in" hyp(H) :=
  rewrite ?append_cons_str, ?append_nil_str in H.

Lemma append_assoc_str (a b c : string) : (a +:+ b) +:+ c = a +:+ (b +:+ c).
Proof. induction a as [|x a IH]; str_norm; [done | by rewrite IH]. Qed.

Lemma startsWith_spec (s w : string) :
  startsWith s w = true <-> exists post, s = w +:+ post.
Proof.
  revert s. induction w as [|a w IH]; intros s.
  - split; [intros _; by exists s | by destruct s].
  - destruct s as [|b s]; cbn [startsWith].
    + split; [done | intros [post H]; discriminate H].
    + destruct (decide (a = b)) as [->|Hne].
      * rewrite IH. split; intros [post H]; exists post.
        -- str_norm. by rewrite H.
        -- str_norm in H. by injection H.
      * split; [done | intros [post H]; str_norm in H; injection H; congruence].
Qed.

Lemma includes_spec (s w : string) :
  includes s w = true <-> exists pre post, s = pre +:+ w +:+ post.
Proof.
  induction s as [|c s IH].
  - cbn [includes]. rewrite startsWith_spec. split.
    + intros [post H]. by exists EmptyString, post.
    + intros [pre [post H]]. destruct pre; [by exists post | discriminate H].
  - cbn [includes]. rewrite orb_true_iff, IH, startsWith_spec. split.
    + intros [[post H] | [pre [post H]]].
      * by exists EmptyString, post.
      * exists (String c pre), post. str_norm. by rewrite H.
    + intros [pre [post H]]. destruct pre as [|c' pre].
      * left. by exists post.
      * right. exists pre, post. str_norm in H. by injection H.
Qed.

(** The scan with pending characters of a match passes them. *)
Lemma countFrom_skip (w u t : string) (prev : bool) :
  countFrom w prev (String.length u) (u +:+ t)
  = countFrom w (wordCharBefore prev u) 0 t.
Proof.
  revert prev. induction u as [|c u IH]; intros prev; str_norm.
  - by destruct t.
  - cbn [String.length countFrom wordCharBefore]. apply IH.
Qed.

(** A hit is counted exactly when the word occurs at a position that no
    word character precedes. *)
Lemma countFrom_positive (w s : string) (prev : bool) :
  startsWithWordChar w = true ->
  (0 < countFrom w prev 0 s)%nat
  <-> exists pre post, s = pre +:+ w +:+ post /\ wordCharBefore prev pre = false.
Proof.
  intros Hw. destruct w as [|c w]; [discriminate Hw|]. simpl in Hw.
  revert prev. induction s as [|a s IH]; intros prev.
  - cbn [countFrom]. split; [lia|]. intros (pre & post & H & _).
    destruct pre; discriminate H.
  - cbn [countFrom].
    destruct (xorb prev (isWordChar a) && startsWith (String a s) (String c w)) eqn:Hhit.
    + split; [intros _ | lia].
      apply andb_true_iff in Hhit as [Hb Hs].
      apply startsWith_spec in Hs as [post Hs].
      exists EmptyString, post. split; [done|]. cbn [wordCharBefore].
      str_norm in Hs. injection Hs as -> _. rewrite Hw in Hb. by destruct prev.
    + rewrite IH. split.
      * intros (pre & post & H & Hb). exists (String a pre), post.
        split; [str_norm; by rewrite H | done].
      * intros (pre & post & H & Hb). destruct pre as [|a' pre].
        -- str_norm in H. cbn [wordCharBefore] in Hb. subst prev. injection H as -> H.
           rewrite Hw in Hhit. cbn [xorb andb] in Hhit.
           assert (startsWith (String c s) (String c w) = true) as Hs.
           { apply startsWith_spec. exists post. str_norm. by rewrite H. }
           rewrite Hs in Hhit. discriminate Hhit.
        -- str_norm in H. injection H as -> H. exists pre, post. by split.
Qed.

(** A word followed by a space, at a position that no word character
    precedes, is one hit, and the scan goes on after the space. *)
Lemma countFrom_word_space (w rest : string) :
  startsWithWordChar w = true ->
  countFrom w false 0 (w +:+ " " +:+ rest) = S (countFrom w false 0 rest).
Proof.
  intros Hw. destruct w as [|c w]; [discriminate Hw|]. simpl in Hw.
  str_norm. cbn [countFrom]. rewrite Hw. cbn [xorb].
  assert (startsWith (String c (w +:+ String " " rest)) (String c w) = true) as ->.
  { apply startsWith_spec. exists (String " " rest). by str_norm. }
  cbn [andb String.length].
  replace (S (String.length w) - 1) with (String.length w) by lia.
  rewrite countFrom_skip. f_equal. cbn [countFrom].
  assert (startsWith (String " " rest) (String c w) = false) as Hn.
  { destruct (startsWith (String " " rest) (String c w)) eqn:E; [|done].
    apply startsWith_spec in E as [post E]. str_norm in E.
    injection E as <- _. discriminate Hw. }
  rewrite Hn, andb_false_r. done.
Qed.

Lemma countMatches_repeat (w : string) (k : nat) :
  startsWithWordChar w = true ->
  countMatches w (repeatString (w +:+ " ") k) = k.
Proof.
  intros Hw. unfold countMatches. induction k as [|k IH]; [done|].
  cbn [repeatString]. rewrite append_assoc_str.
  rewrite countFrom_word_space by done. by rewrite IH.
Qed.

Lemma lexicon_words_start_with_word_char :
  Forall (fun w => startsWithWordChar w = true)
         (Scout.POSITIVE_WORDS ++ Scout.NEGATIVE_WORDS).
Proof. repeat constructor. Qed.

(** ** The sentiment scorer *)

Lemma negationStep_total (w next : string) (sc : Z * Z) :
  ((Scout.negationStep w next sc).1 + (Scout.negationStep w next sc).2
   = sc.1 + sc.2)%Z.
Proof.
  unfold Scout.negationStep. destruct sc as [p n].
  repeat case_match; simpl; lia.
Qed.

Lemma negationLoop_total (words : list string) (sc : Z * Z) :
  ((Scout.negationLoop words sc).1 + (Scout.negationLoop words sc).2
   = sc.1 + sc.2)%Z.
Proof.
  revert sc. induction words as [|w rest IH]; intros sc; [done|].
  cbn [Scout.negationLoop]. destruct rest as [|next rest']; [done|].
  rewrite IH. apply negationStep_total.
Qed.


(** The counting loop of [scout.js] adds up the hits of the words. *)
Lemma scout_lexiconScore_sum (lexicon : list string) (t : string) :
  Scout.lexiconScore lexicon t
  = Z.of_nat (sum_list_with (fun w => countMatches w t) lexicon).
Proof.
  unfold Scout.lexiconScore.
  assert (forall acc : Z,
    foldl (fun score word => (score + Z.of_nat (countMatches word t))%Z) acc lexicon
    = (acc + Z.of_nat (sum_list_with (fun w => countMatches w t) lexicon))%Z) as H.
  { induction lexicon as [|w l IH]; intros acc; [simpl; lia|].
    cbn [foldl sum_list_with]. rewrite IH. lia. }
  by rewrite H.
Qed.





Lemma round2_mono (a b : Q) : (a <= b)%Q -> (Scout.round2 a <= Scout.round2 b)%Q.
Proof.
  intros H. unfold Scout.round2, mathRound, Qdiv.
  apply Qmult_le_compat_r; [|done].
  rewrite <- Zle_Qle. apply Qfloor_resp_le.
  apply Qplus_le_l. by apply Qmult_le_compat_r.
Qed.


Lemma notify_lexiconScore_filter (lexicon : list string) (t : string) :
  Notify.lexiconScore lexicon t
  = Z.of_nat (length (filter (fun w => includes t w) lexicon)).
Proof.
  unfold Notify.lexiconScore.
  assert (forall acc : Z,
    foldl (fun score word => if includes t word then (score + 1)%Z else score) acc lexicon
    = (acc + Z.of_nat (length (filter (fun w => includes t w) lexicon)))%Z) as H.
  { induction lexicon as [|w l IH]; intros acc; [simpl; lia|].
    cbn [foldl]. rewrite IH. destruct (includes t w) eqn:E.
    - rewrite filter_cons_True by (by apply Is_true_true). simpl. lia.
    - rewrite filter_cons_False by (by apply Is_true_false). done. }
  by rewrite H.
Qed.





(** C6, as amended: in [scout.js] a lexicon word is hit at every position,
    taken left to right without overlap, where it occurs and no word
    character precedes it; what follows the occurrence is not looked at.  So
    a word repeated [k] times, each time followed by a space, counts [k]
    hits, and a word has a hit exactly when it occurs somewhere after a
    non-word character or at the start.  In [notify.js] each lexicon word
    counts once when the text includes it anywhere, however often. *)
Theorem lexicon_hits_counted (w : string) :
  startsWithWordChar w = true ->
  (forall k, countMatches w (repeatString (w +:+ " ") k) = k)
  /\ (forall s, (0 < countMatches w s)%nat
                <-> exists pre post, s = pre +:+ w +:+ post
                                     /\ wordCharBefore false pre = false)
  /\ (forall lexicon t,
        Scout.lexiconScore lexicon t
        = Z.of_nat (sum_list_with (fun lw => countMatches lw t) lexicon))
  /\ (forall text,
        Notify.positiveScore text
        = Z.of_nat (length (filter (fun lw => includes (toLowerCase text) lw)
                                   Notify.POSITIVE_WORDS))
        /\ Notify.negativeScore text
           = Z.of_nat (length (filter (fun lw => includes (toLowerCase text) lw)
                                      Notify.NEGATIVE_WORDS))).
Proof.
  intros Hw. split_and!.
  - intros k. by apply countMatches_repeat.
  - intros s. by apply countFrom_positive.
  - apply scout_lexiconScore_sum.
  - intros text. split; apply notify_lexiconScore_filter.
Qed.

Lemma lexicon_hits_counted_witness :
  startsWithWordChar "love" = true
  /\ (forall k, countMatches "love" (repeatString "love " k) = k)
  /\ (forall s, (0 < countMatches "love" s)%nat
                <-> exists pre post, s = pre +:+ "love" +:+ post
                                     /\ wordCharBefore false pre = false).
Proof.
  split; [reflexivity|].
  pose proof (lexicon_hits_counted "love" eq_refl) as (H1 & H2 & _).
  exact (conj H1 H2).
Defined.

(** C6, as stated, fails: [scout.js] counts the hit of "love" in "lovely",
    which is no whole word, and [notify.js] counts "love" inside "glove" and
    counts it once in a text that repeats it three times. *)
Lemma lexicon_hits_not_whole_words :
  Scout.positive (Scout.analyzeSentiment "lovely") = 1%Z
  /\ Notify.positiveScore "glove" = 1%Z
  /\ Notify.positiveScore "love love love" = 1%Z.
Proof. by vm_compute. Qed.

(** C7 fails on the code: a negation followed by a word that includes a
    lexicon word with no hit of its own ("glove" includes "love") takes one
    from a count that was never raised.  On "not glove hate" the positive
    count is -1 and the compound is -3, outside [-1, 1]. *)
Theorem sentiment_negative_count_and_compound_out_of_range :
  let s := Scout.analyzeSentiment "not glove hate" in
  Scout.positive s = (-1)%Z /\ Scout.negative s = 2%Z
  /\ (Scout.compound s == - 3)%Q
  /\ ~ (0 <= Scout.positive s)%Z
  /\ ~ (- 1 <= Scout.compound s)%Q.
Proof. vm_compute. split_and!; try done. Qed.

(** ** The categorizer *)

Lemma includes_substringOf (s w : string) :
  includes s w = true <-> substringOf w s.
Proof. apply includes_spec. Qed.

Lemma hasSignal_spec (sigs : list string) (p : Scout.Post) :
  Scout.hasSignal sigs p = true
  <-> exists phrase, phrase ∈ sigs
                     /\ substringOf phrase (toLowerCase (Scout.postText p)).
Proof.
  unfold Scout.hasSignal. rewrite existsb_exists.
  split; intros (phrase & H1 & H2); exists phrase.
  - by rewrite list_elem_of_In, <- includes_substringOf.
  - by rewrite <- list_elem_of_In, includes_substringOf.
Qed.

Lemma elem_of_matched (t : string) (sigs : list string) (phrase : string) :
  phrase ∈ Scout.matched t sigs <-> phrase ∈ sigs /\ substringOf phrase t.
Proof.
  unfold Scout.matched. rewrite list_elem_of_filter, Is_true_true, includes_substringOf.
  tauto.
Qed.

Lemma matched_nil_iff (t : string) (sigs : list string) :
  Scout.matched t sigs = [] <-> forall phrase, phrase ∈ sigs -> ~ substringOf phrase t.
Proof.
  split.
  - intros H phrase Hin Hsub.
    assert (phrase ∈ Scout.matched t sigs) as Hm by (by apply elem_of_matched).
    rewrite H in Hm. by apply not_elem_of_nil in Hm.
  - intros H. destruct (Scout.matched t sigs) as [|x l] eqn:E; [done|].
    assert (x ∈ Scout.matched t sigs) as Hm by (rewrite E; apply list_elem_of_here).
    apply elem_of_matched in Hm as [Hin Hsub]. by destruct (H x).
Qed.






(** The pricing example of the test suite: phrases of three categories give
    the three keys. *)
Example categorizer_two_categories :
  (fun r => (Scout.categories r).*1)
  <$> Scout.detectPainPoints
        [ Scout.mkPost "3" "Tool X is too expensive"
            "Looking for a cheaper alternative to this overpriced product"
            15 8 "someone" 0 "" ] true
  = [ ["helpSeeking"; "alternatives"; "pricing"] ].
Proof. by vm_compute. Qed.

(** ** The dedup store *)

Lemma setHas_true (s : list string) (k : string) : setHas s k = true <-> k ∈ s.
Proof. unfold setHas. apply bool_decide_eq_true. Qed.

Lemma setHas_false (s : list string) (k : string) : setHas s k = false <-> k ∉ s.
Proof. unfold setHas. apply bool_decide_eq_false. Qed.

Lemma setAdd_present (s : list string) (k : string) : k ∈ s -> setAdd s k = s.
Proof. intros H%setHas_true. unfold setAdd. by rewrite H. Qed.

Lemma setAdd_absent (s : list string) (k : string) : k ∉ s -> setAdd s k = s ++ [k].
Proof. intros H%setHas_false. unfold setAdd. by rewrite H. Qed.


Lemma foldl_setAdd_fresh (acc keys : list string) :
  NoDup (acc ++ keys) -> foldl setAdd acc keys = acc ++ keys.
Proof.
  revert acc. induction keys as [|k keys IH]; intros acc Hnd.
  - by rewrite app_nil_r.
  - cbn [foldl]. rewrite setAdd_absent.
    + rewrite IH; rewrite <- app_assoc; done.
    + apply NoDup_app in Hnd as (_ & Hdisj & _). intros Hin.
      apply (Hdisj k Hin). apply list_elem_of_here.
Qed.

(** A set read back from an array without repetitions is that array. *)
Lemma setOfArray_NoDup (a : list string) : NoDup a -> setOfArray a = a.
Proof. intros H. unfold setOfArray. by rewrite foldl_setAdd_fresh. Qed.

Lemma sliceLast_NoDup {A} (n : nat) (a : list A) : NoDup a -> NoDup (sliceLast n a).
Proof. intros H. eapply sublist_NoDup; [done|]. apply sublist_drop. Qed.

(** Saving a set and loading it again gives its last 1000 keys. *)
Lemma loadSeen_saveSeen (store : Data.Store) (seen : list string) :
  NoDup seen ->
  Notify.loadSeen (Notify.saveSeen store seen) = sliceLast 1000 seen.
Proof.
  intros H. unfold Notify.loadSeen, Notify.saveSeen, loadJSON. simpl.
  by apply setOfArray_NoDup, sliceLast_NoDup.
Qed.



(** ** The check cycle of [notify.js] *)

Lemma foldl_bind {A B C} (f : A -> B -> A) (g : C -> list B) (l : list C) (a : A) :
  foldl f a (l ≫= g) = foldl (fun a x => foldl f a (g x)) a l.
Proof.
  revert a. induction l as [|x l IH]; intros a; [done|].
  rewrite bind_cons, foldl_app. apply IH.
Qed.

Lemma foldl_ext_eq {A B} (f g : A -> B -> A) (l : list B) (a : A) :
  (forall a x, f a x = g a x) -> foldl f a l = foldl g a l.
Proof.
  intros H. revert a. induction l as [|x l IH]; intros a; [done|].
  cbn [foldl]. by rewrite H, IH.
Qed.

Lemma checkSubreddit_items (fetch : Reddit.Fetch) (limit : nat)
    (key : string -> string) (names : list string) (st : Notify.CheckState)
    (sub : string) :
  Notify.checkSubreddit fetch limit key names st sub
  = foldl (checkItem key) st (itemsOfSub fetch limit names sub).
Proof.
  unfold Notify.checkSubreddit, itemsOfSub.
  destruct (fetch sub limit) as [posts|]; [|done]. by rewrite foldl_fmap.
Qed.

(** The three nested loops are one loop over the items. *)
Lemma checkAlertsLoop_items (fetch : Reddit.Fetch) (alerts : list Data.Alert)
    (seen : list string) :
  Notify.checkAlertsLoop fetch alerts seen
  = foldl (checkItem Notify.alertKey) (seen, []) (itemsOfAlerts fetch alerts).
Proof.
  unfold Notify.checkAlertsLoop, itemsOfAlerts. rewrite foldl_bind.
  apply foldl_ext_eq. intros st a. unfold Notify.checkAlert, itemsOfAlert.
  rewrite foldl_bind. apply foldl_ext_eq. intros st' sub.
  apply checkSubreddit_items.
Qed.

(** One turn of the loop: an item whose key is seen or whose text has none of
    the names changes nothing; any other adds its key and its match. *)
Lemma checkItem_cases (key : string -> string) (st : Notify.CheckState) (it : Item) :
  (itemKey key it ∈ st.1 \/ itemNames it = []) /\ checkItem key st it = st
  \/ ((itemKey key it ∉ st.1) /\ itemNames it <> [])
     /\ checkItem key st it = (st.1 ++ [itemKey key it], st.2 ++ [itemMatch it]).
Proof.
  unfold checkItem, Notify.checkPost. fold (itemKey key it). fold (itemNames it).
  destruct (setHas st.1 (itemKey key it)) eqn:Hhas.
  - left. apply setHas_true in Hhas. auto.
  - apply setHas_false in Hhas. case_bool_decide as Hlen.
    + right. rewrite setAdd_absent by done. split; [|done]. split; [done|].
      intros E. rewrite E in Hlen. simpl in Hlen. lia.
    + left. split; [|done]. right.
      destruct (itemNames it); [done | simpl in Hlen; lia].
Qed.

(** What a run of the loop adds: the keys and the matches of a selection
    [emitted] of the items, whose keys were not seen and are distinct. *)
Lemma checkItems_emitted (key : string -> string) (items : list Item)
    (st : Notify.CheckState) :
  exists emitted : list Item,
    emitted `sublist_of` items
    /\ (foldl (checkItem key) st items).1 = st.1 ++ (itemKey key <$> emitted)
    /\ (foldl (checkItem key) st items).2 = st.2 ++ (itemMatch <$> emitted)
    /\ (forall it, it ∈ emitted -> (itemKey key it ∉ st.1) /\ itemNames it <> [])
    /\ NoDup (itemKey key <$> emitted).
Proof.
  revert st. induction items as [|it items IH]; intros st.
  - exists []. cbn [foldl fmap list_fmap]. rewrite !app_nil_r.
    split_and!; [done..| |constructor]. intros it H. by apply elem_of_nil in H.
  - cbn [foldl].
    destruct (checkItem_cases key st it) as [[_ ->] | [[Hk Hn] ->]].
    + destruct (IH st) as (emitted & Hsub & H1 & H2 & H3 & H4).
      exists emitted. split_and!; [by apply sublist_cons | done..].
    + destruct (IH (st.1 ++ [itemKey key it], st.2 ++ [itemMatch it]))
        as (emitted & Hsub & H1 & H2 & H3 & H4).
      cbn [fst snd] in *. exists (it :: emitted).
      split_and!.
      * by apply sublist_skip.
      * rewrite H1, <- app_assoc. done.
      * rewrite H2, <- app_assoc. done.
      * intros it' [->|Hin]%elem_of_cons; [done|].
        destruct (H3 it' Hin) as [Hk' Hn']. split; [|done].
        intros Hin'. apply Hk', elem_of_app. by left.
      * cbn [fmap list_fmap]. apply NoDup_cons. split; [|done].
        intros (it' & Heq & Hin)%list_elem_of_fmap.
        destruct (H3 it' Hin) as [Hk' _]. apply Hk', elem_of_app. right.
        rewrite Heq. apply list_elem_of_here.
Qed.

(** The seen set only grows. *)
Lemma checkItems_grows (key : string -> string) (items : list Item)
    (st : Notify.CheckState) (k : string) :
  k ∈ st.1 -> k ∈ (foldl (checkItem key) st items).1.
Proof.
  intros H. destruct (checkItems_emitted key items st) as (e & _ & -> & _).
  apply elem_of_app. by left.
Qed.

(** When the loop is over, every item has its key in the set or no name in
    its text. *)
Lemma checkItems_covered (key : string -> string) (items : list Item)
    (st : Notify.CheckState) (it : Item) :
  it ∈ items ->
  itemKey key it ∈ (foldl (checkItem key) st items).1 \/ itemNames it = [].
Proof.
  revert st. induction items as [|it' items IH]; intros st Hin.
  - by apply elem_of_nil in Hin.
  - cbn [foldl]. apply elem_of_cons in Hin as [->|Hin]; [|by apply IH].
    destruct (checkItem_cases key st it') as [[[Hk|Hn] ->] | [_ ->]].
    + left. by apply checkItems_grows.
    + by right.
    + left. apply checkItems_grows. cbn [fst]. apply elem_of_app. right.
      apply list_elem_of_here.
Qed.

(** On such items the loop changes nothing. *)
Lemma checkItems_idle (key : string -> string) (items : list Item)
    (st : Notify.CheckState) :
  (forall it, it ∈ items -> itemKey key it ∈ st.1 \/ itemNames it = []) ->
  foldl (checkItem key) st items = st.
Proof.
  induction items as [|it items IH]; intros H; [done|].
  cbn [foldl].
  destruct (checkItem_cases key st it) as [[_ ->] | [[Hk Hn] _]].
  - apply IH. intros it' Hin. apply H. apply elem_of_cons. by right.
  - destruct (H it) as [Hk'|Hn']; [apply list_elem_of_here|done..].
Qed.

Lemma setAdd_NoDup (s : list string) (k : string) : NoDup s -> NoDup (setAdd s k).
Proof.
  intros H. destruct (decide (k ∈ s)) as [Hin|Hout].
  - by rewrite setAdd_present.
  - rewrite setAdd_absent by done. apply NoDup_app. split_and!; [done| |apply NoDup_singleton].
    intros x Hx ->%list_elem_of_singleton. done.
Qed.

Lemma loadSeen_NoDup (store : Data.Store) : NoDup (Notify.loadSeen store).
Proof.
  unfold Notify.loadSeen, setOfArray.
  generalize (loadJSON (Data.seenMatches store) []). intros a.
  assert (forall acc, NoDup acc -> NoDup (foldl setAdd acc a)) as H.
  { induction a as [|k a IH]; intros acc Hacc; [done|].
    cbn [foldl]. by apply IH, setAdd_NoDup. }
  apply H. constructor.
Qed.

(** ** The check cycle of [scheduler.js] *)

Lemma filter_all_true {A} (P : A -> Prop) `{!forall x, Decision (P x)} (l : list A) :
  (forall x, x ∈ l -> P x) -> filter P l = l.
Proof.
  induction l as [|x l IH]; intros Hall; [done|].
  rewrite filter_cons_True by (apply Hall, list_elem_of_here).
  f_equal. apply IH. intros y Hy. apply Hall. apply elem_of_cons. by right.
Qed.

Lemma filter_all_false {A} (P : A -> Prop) `{!forall x, Decision (P x)} (l : list A) :
  (forall x, x ∈ l -> ~ P x) -> filter P l = [].
Proof.
  induction l as [|x l IH]; intros Hall; [done|].
  rewrite filter_cons_False by (apply Hall, list_elem_of_here).
  apply IH. intros y Hy. apply Hall. apply elem_of_cons. by right.
Qed.










Lemma sliceLast_all {A} (n : nat) (a : list A) : length a <= n -> sliceLast n a = a.
Proof. intros H. unfold sliceLast. replace (length a - n) with 0 by lia. apply drop_0. Qed.

Lemma notify_checkAlerts_items (fetch : Reddit.Fetch) (store : Data.Store) :
  Notify.checkAlerts fetch store
  = let st := foldl (checkItem Notify.alertKey) (Notify.loadSeen store, [])
                (itemsOfAlerts fetch
                   (filter (fun a => Data.enabled a)
                           (loadJSON (Data.keywordAlerts store) []))) in
    (Notify.saveSeen store st.1, st.2).
Proof. unfold Notify.checkAlerts. by rewrite checkAlertsLoop_items. Qed.

(** The cycle of [notify.js]: what it emits, what it saves, and what a
    second cycle over the same listing does. *)
Lemma notify_checkAlerts_spec (fetch : Reddit.Fetch) (store : Data.Store) :
  NotifyCycle fetch store.
Proof.
  unfold NotifyCycle. rewrite (notify_checkAlerts_items fetch store). cbv zeta.
  set (alerts := filter (fun a => Data.enabled a) (loadJSON (Data.keywordAlerts store) [])).
  set (seen := Notify.loadSeen store).
  set (items := itemsOfAlerts fetch alerts).
  pose proof (checkItems_covered Notify.alertKey items (seen, [])) as Hcov.
  destruct (checkItems_emitted Notify.alertKey items (seen, []))
    as (emitted & Hsub & H1 & H2 & H3 & H4).
  cbn [fst snd] in H1, H2, H3. rewrite app_nil_l in H2.
  rewrite H1 in Hcov. rewrite H1, H2. cbn [fst snd].
  set (seen' := seen ++ (itemKey Notify.alertKey <$> emitted)) in *.
  exists emitted. split_and!; [done..|].
  intros Hlen.
  assert (NoDup seen') as Hnd.
  { apply NoDup_app. split_and!; [apply loadSeen_NoDup | | done].
    intros k Hk (it & -> & Hit)%list_elem_of_fmap. by destruct (H3 it Hit). }
  rewrite notify_checkAlerts_items. cbv zeta.
  change (Data.keywordAlerts (Notify.saveSeen store seen'))
    with (Data.keywordAlerts store).
  fold alerts. fold items.
  rewrite loadSeen_saveSeen, sliceLast_all by done.
  rewrite checkItems_idle by done. done.
Qed.




(** The scenario, run: the first cycle of [notify.js] emits the post and
    saves its identifier, the second emits nothing; the cycle of
    [scheduler.js] counts one match. *)
Example crm_scenario :
  let r1 := Notify.checkAlerts crmFetch crmStore in
  let r2 := Notify.checkAlerts crmFetch r1.1 in
  Notify.title <$> r1.2 = ["Looking for a CRM alternative"]
  /\ Notify.keywords <$> r1.2 = [["looking for"]]
  /\ Data.seenMatches r1.1 = Some ["p1"]
  /\ r2.2 = []
  /\ Data.matchCount
       <$> loadJSON (Data.keywordAlerts
                       (Scheduler.checkAlerts crmFetch (fun _ => 5%Z) crmStore).1) []
     = [1].
Proof. by vm_compute. Qed.


(** ** Scheduled posts *)


Lemma findPost_None (posts : list Data.ScheduledPost) (postId : string) :
  Scheduler.findPost posts postId = None
  <-> forall p, p ∈ posts -> Data.id p <> postId.
Proof.
  unfold Scheduler.findPost. rewrite fmap_None, list_find_None, Forall_forall. done.
Qed.

Lemma findAlert_None_iff (alerts : list Data.Alert) (anId : string) :
  Scheduler.findAlert alerts anId = None
  <-> forall a, a ∈ alerts -> Data.alertId a <> anId.
Proof.
  unfold Scheduler.findAlert. rewrite fmap_None, list_find_None, Forall_forall. done.
Qed.

Lemma alter_insert {A} (f : A -> A) (l : list A) (i : nat) (x : A) :
  l !! i = Some x -> alter f i l = <[i := f x]> l.
Proof.
  intros H. apply list_eq. intros j. destruct (decide (i = j)) as [<-|Hne].
  - rewrite list_lookup_alter_eq, H, list_lookup_insert_eq; [done|].
    by eapply lookup_lt_Some.
  - by rewrite list_lookup_alter_ne, list_lookup_insert_ne.
Qed.






(** C10: for an identifier that no stored record has, [cancelPost],
    [markPosted] and [toggleAlert] return null and leave every file of the
    store as it is. *)
Theorem unknown_id_changes_nothing (store : Data.Store) (now : Data.Time)
    (anId : string) (url : option string) (flag : bool) :
  (forall p, p ∈ loadJSON (Data.scheduledPosts store) [] -> Data.id p <> anId) ->
  (forall a, a ∈ loadJSON (Data.keywordAlerts store) [] -> Data.alertId a <> anId) ->
  Scheduler.cancelPost now store anId = (store, None)
  /\ Scheduler.markPosted now store anId url = (store, None)
  /\ Scheduler.toggleAlert store anId flag = (store, None).
Proof.
  intros Hposts%findPost_None Halerts%findAlert_None_iff.
  unfold Scheduler.cancelPost, Scheduler.markPosted, Scheduler.toggleAlert.
  by rewrite Hposts, Halerts.
Qed.

Lemma unknown_id_changes_nothing_witness :
  (forall p, p ∈ loadJSON (Data.scheduledPosts launchStore) [] -> Data.id p <> "zz")
  /\ (forall a, a ∈ loadJSON (Data.keywordAlerts launchStore) [] -> Data.alertId a <> "zz")
  /\ Scheduler.cancelPost 7%Z launchStore "zz" = (launchStore, None)
  /\ Scheduler.markPosted 7%Z launchStore "zz" None = (launchStore, None)
  /\ Scheduler.toggleAlert launchStore "zz" false = (launchStore, None).
Proof.
  assert (forall p, p ∈ loadJSON (Data.scheduledPosts launchStore) [] -> Data.id p <> "zz")
    as H1.
  { simpl. intros p ->%list_elem_of_singleton. discriminate. }
  assert (forall a, a ∈ loadJSON (Data.keywordAlerts launchStore) [] -> Data.alertId a <> "zz")
    as H2.
  { simpl. intros a ->%list_elem_of_singleton. discriminate. }
  split; [exact H1|]. split; [exact H2|].
  exact (unknown_id_changes_nothing launchStore 7%Z "zz" None false H1 H2).
Defined.

(** ** The digests *)

Lemma scout_countLabels_total (l : list (option Scout.Sentiment)) :
  Forall is_Some l -> total (Scout.countLabels l) = length l.
Proof.
  unfold total, Scout.countLabels. cbn [Scout.positiveCount Scout.negativeCount Scout.neutralCount].
  induction 1 as [|x l [s ->] _ IH]; [done|].
  rewrite !filter_cons. cbn [length]. rewrite <- IH.
  unfold Scout.hasLabel. cbn [fmap option_fmap option_map].
  repeat case_decide; simplify_eq; cbn [length]; try lia.
  all: destruct (Scout.label s); congruence.
Qed.

Lemma notify_countLabels_total (l : list Scout.Label) :
  total (Notify.countLabels l) = length l.
Proof.
  unfold total, Notify.countLabels. cbn [Scout.positiveCount Scout.negativeCount Scout.neutralCount].
  induction l as [|x l IH]; [done|].
  rewrite !filter_cons. cbn [length]. rewrite <- IH.
  repeat case_decide; simplify_eq; cbn [length]; try lia.
  all: destruct x; congruence.
Qed.

(** The sentiments of the pain points of a digest of [scout.js] are those of
    the posts of the window that have a pain signal. *)
Lemma digest_painPoint_sentiments (fetch : Reddit.Fetch) (limit : nat) (cutoff : Z)
    (subs : list string) :
  (fun pp : string * Scout.PainPoint => Scout.sentiment pp.2)
  <$> concat ((fun x => x.1.2) <$> (Scout.digestOfSub fetch limit cutoff <$> subs))
  = (fun p => Some (Scout.analyzeSentiment (Scout.postText p)))
    <$> filter (fun p => Scout.hasSignal Scout.ALL_PAIN_SIGNALS p)
               (windowPosts fetch limit cutoff subs).
Proof.
  unfold windowPosts. induction subs as [|sub subs IH]; [done|].
  cbn [fmap list_fmap concat]. rewrite bind_cons, filter_app, !fmap_app. f_equal; [|apply IH].
  unfold Scout.digestOfSub. destruct (fetch sub limit) as [children|]; [|done].
  cbn [fst snd]. unfold Scout.detectPainPoints, Scout.detectPainPointsWith.
  rewrite <- !list_fmap_compose. done.
Qed.

Lemma digest_counts_le (fetch : Reddit.Fetch) (limit : nat) (cutoff : Z)
    (subs : list string) :
  length (concat ((fun x => x.1.2) <$> (Scout.digestOfSub fetch limit cutoff <$> subs)))
  <= length (concat ((fun x => x.1.1) <$> (Scout.digestOfSub fetch limit cutoff <$> subs))).
Proof.
  induction subs as [|sub subs IH]; [done|].
  cbn [fmap list_fmap concat]. rewrite !length_app.
  apply Nat.add_le_mono; [|apply IH].
  unfold Scout.digestOfSub. destruct (fetch sub limit) as [children|]; [|done].
  cbn [fst snd]. unfold Scout.detectPainPoints, Scout.detectPainPointsWith.
  rewrite !length_fmap. apply length_filter.
Qed.

(** C9, as amended: the digest of [scout.js] counts the sentiment labels of
    the posts of the window that have a pain signal, and of no other post, so
    that its three counts add up to the number of pain points, which is at
    most the number of posts; the digest of [notify.js], which has no pain
    signals, counts the labels of all the posts of the window, so that its
    three counts add up to the number of posts. *)
Theorem digest_sentiment_population (fetch : Reddit.Fetch) (now : Z)
    (subs : list string) (hours : Z) (limit : nat) (store : Data.Store) :
  let d := Scout.generateDailyDigest fetch now subs hours limit in
  let cutoff := (now - hours * 60 * 60 * 1000)%Z in
  Scout.sentimentOverview d
  = Scout.countLabels
      ((fun p => Some (Scout.analyzeSentiment (Scout.postText p)))
       <$> filter (fun p => Scout.hasSignal Scout.ALL_PAIN_SIGNALS p)
                  (windowPosts fetch limit cutoff subs))
  /\ total (Scout.sentimentOverview d) = Scout.totalPainPoints d
  /\ Scout.totalPainPoints d <= Scout.totalPosts d
  /\ (forall d', Notify.generateDigest fetch now store = Some d' ->
        total (Notify.sentimentCounts d') = Notify.totalPosts d').
Proof.
  cbv zeta. unfold Scout.generateDailyDigest.
  cbn [Scout.sentimentOverview Scout.totalPainPoints Scout.totalPosts].
  split_and!.
  - by rewrite digest_painPoint_sentiments.
  - rewrite scout_countLabels_total; [by rewrite length_fmap|].
    rewrite digest_painPoint_sentiments. apply Forall_fmap, Forall_forall.
    intros p _. by eexists.
  - apply digest_counts_le.
  - intros d'. unfold Notify.generateDigest. case_bool_decide; [done|].
    intros [= <-]. cbn [Notify.sentimentCounts Notify.totalPosts].
    by rewrite notify_countLabels_total, length_fmap.
Qed.

(** C9, as stated, fails for the digest of [notify.js]: a post of the window
    that has no pain signal, and so stays out of the counts of the digest of
    [scout.js], is counted as positive. *)
Lemma notify_digest_counts_posts_without_signal :
  let now := 1700000600000%Z in
  Scout.detectPainPoints (Scout.extractPosts [praisePost]) true = []
  /\ Scout.sentimentOverview (Scout.generateDailyDigest praiseFetch now ["SaaS"] 24 100)
     = {| Scout.positiveCount := 0; Scout.negativeCount := 0; Scout.neutralCount := 0 |}
  /\ Notify.sentimentCounts <$> Notify.generateDigest praiseFetch now crmStore
     = Some {| Scout.positiveCount := 1; Scout.negativeCount := 0;
               Scout.neutralCount := 0 |}.
Proof. by vm_compute. Qed.

(** * Further properties of the code *)

(** ** Sorting *)

Lemma insertWith_Permutation {A} (cmp : A -> A -> Z) (x : A) (l : list A) :
  JSArray.insertWith cmp x l ≡ₚ x :: l.
Proof.
  induction l as [|y r IH]; [done|]. cbn [JSArray.insertWith].
  case_match; [|done]. rewrite IH. apply Permutation_swap.
Qed.

Lemma sortWith_Permutation {A} (cmp : A -> A -> Z) (l : list A) :
  JSArray.sortWith cmp l ≡ₚ l.
Proof.
  induction l as [|x r IH]; [done|]. cbn [JSArray.sortWith].
  by rewrite insertWith_Permutation, IH.
Qed.

Lemma insertWith_sorted {A} (key : A -> Z) (x : A) (l : list A) :
  StronglySorted (fun a b => (key b <= key a)%Z) l ->
  StronglySorted (fun a b => (key b <= key a)%Z)
                 (JSArray.insertWith (JSArray.descending key) x l).
Proof.
  induction 1 as [|y r Hr IH Hy]; cbn [JSArray.insertWith].
  - repeat constructor.
  - unfold JSArray.descending at 1. case_match eqn:E.
    + apply Z.ltb_lt in E. constructor; [done|].
      rewrite insertWith_Permutation. constructor; [lia | done].
    + apply Z.ltb_ge in E. constructor; [by constructor|].
      constructor; [lia|].
      eapply Forall_impl; [exact Hy|]. cbn. intros z Hz. lia.
Qed.

Lemma sortWith_sorted {A} (key : A -> Z) (l : list A) :
  StronglySorted (fun a b => (key b <= key a)%Z)
                 (JSArray.sortWith (JSArray.descending key) l).
Proof.
  induction l as [|x r IH]; [constructor|]. by apply insertWith_sorted.
Qed.

Lemma insertWith_ties {A} (key : A -> Z) (z : Z) (x : A) (l : list A) :
  filter (fun a => key a = z) (JSArray.insertWith (JSArray.descending key) x l)
  = filter (fun a => key a = z) (x :: l).
Proof.
  induction l as [|y r IH]; [done|]. cbn [JSArray.insertWith].
  unfold JSArray.descending at 1. case_match eqn:E; [|done].
  apply Z.ltb_lt in E. rewrite filter_cons, IH, !filter_cons.
  repeat case_decide; try done; lia.
Qed.

(** The sort is stable: the elements of one key keep their order. *)
Lemma sortWith_ties {A} (key : A -> Z) (z : Z) (l : list A) :
  filter (fun a => key a = z) (JSArray.sortWith (JSArray.descending key) l)
  = filter (fun a => key a = z) l.
Proof.
  induction l as [|x r IH]; [done|]. cbn [JSArray.sortWith].
  by rewrite insertWith_ties, !filter_cons, IH.
Qed.

(** The first [n] elements of the sorted array are among the largest. *)
Lemma sortWith_top {A} (key : A -> Z) (n : nat) (l : list A) :
  let sorted := JSArray.sortWith (JSArray.descending key) l in
  length (take n sorted) <= n
  /\ StronglySorted (fun a b => (key b <= key a)%Z) (take n sorted)
  /\ l ≡ₚ take n sorted ++ drop n sorted
  /\ (forall x y, x ∈ take n sorted -> y ∈ drop n sorted -> (key y <= key x)%Z).
Proof.
  cbv zeta. pose proof (sortWith_sorted key l) as Hs.
  rewrite <- (take_drop n (JSArray.sortWith _ l)) in Hs at 1.
  apply StronglySorted_app in Hs as (H1 & H2 & H3).
  split_and!; [rewrite length_take; lia | done | | done].
  by rewrite take_drop, sortWith_Permutation.
Qed.

(** ** Trending posts and scans *)

(** X1: [findTrending] returns the posts with a score of at least the
    threshold or at least 20 comments, each as often as it was given, and
    nothing else. *)
Theorem findTrending_selects (posts : list Scout.Post) (threshold : Z) :
  Scan.findTrending posts threshold
  ≡ₚ filter (fun p => (threshold <= Scout.score p)%Z \/ (20 <= Scout.numComments p)%Z)
            posts
  /\ (forall p, p ∈ Scan.findTrending posts threshold
                <-> p ∈ posts
                    /\ ((threshold <= Scout.score p)%Z \/ (20 <= Scout.numComments p)%Z)).
Proof.
  assert (Scan.findTrending posts threshold
          ≡ₚ filter (fun p => (threshold <= Scout.score p)%Z
                              \/ (20 <= Scout.numComments p)%Z) posts) as H
    by apply sortWith_Permutation.
  split; [done|]. intros p. rewrite H, list_elem_of_filter. tauto.
Qed.

(** X2: the result of [findTrending] is in descending order of score, and
    posts of one score keep the order in which they were given. *)
Theorem findTrending_order (posts : list Scout.Post) (threshold : Z) :
  StronglySorted (fun a b => (Scout.score b <= Scout.score a)%Z)
                 (Scan.findTrending posts threshold)
  /\ (forall z,
        filter (fun p => Scout.score p = z) (Scan.findTrending posts threshold)
        = filter (fun p => Scout.score p = z)
            (filter (fun p => (threshold <= Scout.score p)%Z
                              \/ (20 <= Scout.numComments p)%Z) posts)).
Proof.
  split.
  - apply (sortWith_sorted Scout.score).
  - intros z. apply (sortWith_ties Scout.score).
Qed.

(** The three trending tests of the test suite. *)
Example findTrending_tests :
  let post i (s c : Z) := Scout.mkPost i "" "" s c "" 0 "" in
  Scout.id <$> Scan.findTrending
                 [post "10" 5%Z 2%Z; post "11" 100%Z 10%Z; post "12" 30%Z 5%Z] 50
  = ["11"]
  /\ Scout.id <$> Scan.findTrending [post "13" 10%Z 5%Z; post "14" 10%Z 50%Z] 100
     = ["14"]
  /\ Scout.id <$> Scan.findTrending
                    [post "15" 75%Z 5%Z; post "16" 150%Z 10%Z; post "17" 60%Z 3%Z] 50
     = ["16"; "15"; "17"].
Proof. by vm_compute. Qed.

(** X3: [multiScan] gives one entry for every community asked for, in the
    order asked: an error entry with the message when the request of the
    community raises, and the scan of its listing otherwise; a failure does
    not stop the scan of the communities that follow. *)
Theorem multiScan_results (fetch : Scan.Fetch) (subs : list string)
    (options : Scan.Options) :
  let r := Scan.multiScan fetch subs options in
  Scan.entrySubreddit <$> Scan.results r = subs
  /\ (forall i sub, subs !! i = Some sub ->
        match fetch sub (default "hot" (Scan.sort options))
                    (default 25 (Scan.limit options)) with
        | inl message => Scan.results r !! i = Some (Scan.Failed sub message)
        | inr children =>
            exists result,
              Scan.results r !! i = Some (Scan.Scanned result)
              /\ Scan.posts result = Scout.extractPosts children
              /\ Scan.total result = length (Scout.extractPosts children)
        end).
Proof.
  cbv zeta. unfold Scan.multiScan. cbn [Scan.results]. split.
  - rewrite <- list_fmap_compose. rewrite <- (list_fmap_id subs) at 2.
    apply list_fmap_ext. intros i sub _. cbn. unfold Scan.scanEntry, Scan.scanSubreddit.
    by destruct (fetch sub _ _).
  - intros i sub Hi. rewrite list_lookup_fmap, Hi. cbn.
    unfold Scan.scanEntry, Scan.scanSubreddit.
    destruct (fetch sub _ _) as [message|children]; [done|].
    eexists. split; [done|]. by split.
Qed.

Lemma take_sortWith_topBy {A} (key : A -> Z) (n : nat) (l : list A) :
  Terms.topBy key n l (take n (JSArray.sortWith (JSArray.descending key) l)).
Proof.
  destruct (sortWith_top key n l) as (H1 & H2 & H3 & H4).
  unfold Terms.topBy. split_and!; [done..|]. by eexists.
Qed.

(** X4: each of the three aggregated lists of [multiScan] holds at most 20
    entries, in descending order of score, and every entry of the scanned
    communities that it leaves out has a score that is not above any score
    in it. *)
Theorem multiScan_top20 (fetch : Scan.Fetch) (subs : list string)
    (options : Scan.Options) :
  let r := Scan.multiScan fetch subs options in
  Terms.topBy (fun p => Scout.score (Scout.post p.2)) 20
    (Scan.tagged Scan.painPoints (Scan.results r))
    (Scan.aggPainPoints (Scan.aggregated r))
  /\ Terms.topBy (fun p => Scout.score (Scout.oppPost p.2)) 20
       (Scan.tagged Scan.opportunities (Scan.results r))
       (Scan.aggOpportunities (Scan.aggregated r))
  /\ Terms.topBy (fun p => Scout.score p.2) 20
       (Scan.tagged Scan.trending (Scan.results r))
       (Scan.aggTrending (Scan.aggregated r)).
Proof. cbv zeta. split_and!; apply take_sortWith_topBy. Qed.

Lemma detectPainPoints_sentiment (posts : list Scout.Post) (inc : bool)
    (pp : Scout.PainPoint) :
  pp ∈ Scout.detectPainPoints posts inc ->
  Scout.sentiment pp
  = if inc then Some (Scout.analyzeSentiment (Scout.postText (Scout.post pp))) else None.
Proof.
  unfold Scout.detectPainPoints, Scout.detectPainPointsWith.
  intros (p & -> & _)%list_elem_of_fmap. by destruct inc.
Qed.

Lemma tagged_painPoints_sentiment (fetch : Scan.Fetch) (options : Scan.Options)
    (subs : list string) (x : string * Scout.PainPoint) :
  x ∈ Scan.tagged Scan.painPoints (Scan.scanEntry fetch options <$> subs) ->
  is_Some (Scout.sentiment x.2) <-> default true (Scan.includeSentiment options) = true.
Proof.
  unfold Scan.tagged. intros (e & Hx & He)%list_elem_of_bind.
  apply list_elem_of_fmap in He as (sub & -> & _).
  unfold Scan.scanEntry, Scan.scanSubreddit in Hx.
  destruct (fetch sub _ _) as [message|children]; [by apply elem_of_nil in Hx|].
  cbn [Scan.painPoints Scan.subreddit] in Hx.
  apply list_elem_of_fmap in Hx as (pp & -> & Hpp). cbn [snd].
  rewrite (detectPainPoints_sentiment _ _ _ Hpp).
  destruct (default true _); split; intros H; try done; by destruct H.
Qed.

Lemma scout_countLabels_none (l : list (option Scout.Sentiment)) :
  Forall (fun s => s = None) l -> total (Scout.countLabels l) = 0.
Proof.
  unfold total, Scout.countLabels.
  cbn [Scout.positiveCount Scout.negativeCount Scout.neutralCount].
  intros H. rewrite !filter_all_false; [done|..].
  all: intros s Hs Hl; rewrite Forall_forall in H; by rewrite (H s Hs) in Hl.
Qed.

(** X5: the sentiment summary of [multiScan] counts the pain points of all
    the scanned communities, not only the 20 that the aggregate keeps: its
    three counts add up to their number; with the sentiment switched off
    they are all zero. *)
Theorem multiScan_sentimentSummary (fetch : Scan.Fetch) (subs : list string)
    (options : Scan.Options) :
  let r := Scan.multiScan fetch subs options in
  total (Scan.sentimentSummary (Scan.aggregated r))
  = if default true (Scan.includeSentiment options)
    then length (Scan.tagged Scan.painPoints (Scan.results r))
    else 0.
Proof.
  cbv zeta. unfold Scan.multiScan.
  cbn [Scan.aggregated Scan.sentimentSummary Scan.results].
  destruct (default true (Scan.includeSentiment options)) eqn:E.
  - rewrite scout_countLabels_total; [by rewrite length_fmap|].
    apply Forall_fmap, Forall_forall. intros x Hx. cbn.
    by apply (tagged_painPoints_sentiment fetch options subs x Hx).
  - apply scout_countLabels_none, Forall_fmap, Forall_forall. intros x Hx. cbn.
    destruct (Scout.sentiment x.2) eqn:Hs; [|done].
    assert (is_Some (Scout.sentiment x.2)) as H by (by rewrite Hs).
    apply (tagged_painPoints_sentiment fetch options subs x Hx) in H. congruence.
Qed.

(** ** Extracted posts and opportunities *)




(** X7: [detectOpportunities] returns, in the order of the posts, one
    opportunity for every post whose lowercased text has an opportunity
    signal as a substring, and none for the others; the signals of an
    opportunity are the opportunity signals that its text has, and there is
    at least one. *)
Theorem detectOpportunities_matches (posts : list Scout.Post) :
  Scout.oppPost <$> Scout.detectOpportunities posts `sublist_of` posts
  /\ (forall p, p ∈ posts ->
        (exists o, o ∈ Scout.detectOpportunities posts /\ Scout.oppPost o = p)
        <-> exists s, s ∈ Scout.OPPORTUNITY_SIGNALS
                      /\ substringOf s (toLowerCase (Scout.postText p)))
  /\ (forall o, o ∈ Scout.detectOpportunities posts ->
        Scout.oppSignals o <> []
        /\ forall s, s ∈ Scout.oppSignals o
                     <-> s ∈ Scout.OPPORTUNITY_SIGNALS
                         /\ substringOf s (toLowerCase (Scout.postText (Scout.oppPost o)))).
Proof.
  unfold Scout.detectOpportunities. split_and!.
  - rewrite <- list_fmap_compose.
    replace (_ <$> filter _ posts) with (id <$> filter (fun p => Scout.hasSignal Scout.OPPORTUNITY_SIGNALS p) posts)
      by (by apply list_fmap_ext).
    rewrite list_fmap_id. apply sublist_filter.
  - intros p Hp. rewrite <- hasSignal_spec. split.
    + intros (o & (p' & -> & [Hs _]%list_elem_of_filter)%list_elem_of_fmap & <-).
      by apply Is_true_true.
    + intros Hs.
      exists {| Scout.oppPost := p;
                Scout.oppSignals :=
                  Scout.matched (toLowerCase (Scout.postText p))
                                Scout.OPPORTUNITY_SIGNALS |}.
      split; [|done]. apply list_elem_of_fmap. exists p. split; [done|].
      apply list_elem_of_filter. split; [by apply Is_true_true | done].
  - intros o (p & -> & [Hs%Is_true_true _]%list_elem_of_filter)%list_elem_of_fmap.
    cbn [Scout.oppSignals Scout.oppPost]. split; [|intros s; apply elem_of_matched].
    apply hasSignal_spec in Hs as (s & Hin & Hsub). intros E.
    eapply matched_nil_iff in E; [|exact Hin]. by apply E.
Qed.

(** ** More on the sentiment scorers *)

Lemma compoundOf_range (p n : Z) :
  (0 <= p)%Z -> (0 <= n)%Z ->
  (- 1 <= Scout.compoundOf p n /\ Scout.compoundOf p n <= 1)%Q.
Proof.
  intros Hp Hn. unfold Scout.compoundOf.
  destruct (0 <? p + n)%Z eqn:E; [|by split].
  apply Z.ltb_lt in E.
  assert (0 < inject_Z (p + n))%Q as Hpos.
  { change 0%Q with (inject_Z 0). by rewrite <- Zlt_Qlt. }
  split.
  - apply Qle_shift_div_l; [done|].
    change (- 1)%Q with (inject_Z (- 1)).
    rewrite <- inject_Z_mult, <- Zle_Qle. lia.
  - apply Qle_shift_div_r; [done|].
    change 1%Q with (inject_Z 1).
    rewrite <- inject_Z_mult, <- Zle_Qle. lia.
Qed.

Lemma round2_range (c : Q) :
  (- 1 <= c /\ c <= 1)%Q -> (- 1 <= Scout.round2 c /\ Scout.round2 c <= 1)%Q.
Proof.
  intros [H1 H2]. split.
  - eapply Qle_trans; [|apply round2_mono; exact H1]. by vm_compute.
  - eapply Qle_trans; [apply round2_mono; exact H2|]. by vm_compute.
Qed.

(** X8: whenever the two counts that the scorer of [scout.js] returns are
    not negative, the compound it returns lies in [-1, 1]. *)
Theorem sentiment_compound_range (text : string) :
  let s := Scout.analyzeSentiment text in
  (0 <= Scout.positive s)%Z -> (0 <= Scout.negative s)%Z ->
  (- 1 <= Scout.compound s /\ Scout.compound s <= 1)%Q.
Proof.
  cbv zeta. unfold Scout.analyzeSentiment. destruct (Scout.scores text) as [p n].
  cbn [Scout.positive Scout.negative Scout.compound]. intros Hp Hn.
  by apply round2_range, compoundOf_range.
Qed.

Lemma sentiment_compound_range_witness :
  let s := Scout.analyzeSentiment "I love the design but hate the price." in
  (0 <= Scout.positive s)%Z /\ (0 <= Scout.negative s)%Z
  /\ (- 1 <= Scout.compound s /\ Scout.compound s <= 1)%Q.
Proof.
  cbv zeta.
  assert (0 <= Scout.positive
                 (Scout.analyzeSentiment "I love the design but hate the price."))%Z
    as H1 by (by vm_compute).
  assert (0 <= Scout.negative
                 (Scout.analyzeSentiment "I love the design but hate the price."))%Z
    as H2 by (by vm_compute).
  split; [exact H1|]. split; [exact H2|].
  exact (sentiment_compound_range "I love the design but hate the price." H1 H2).
Defined.

(** X9: the scorer of [notify.js], which has no negation step, always
    returns a compound in [-1, 1], and its two counts are at most the sizes
    of the two word lists. *)
Theorem notify_sentiment_range (text : string) :
  (- 1 <= Notify.compound (Notify.analyzeSentiment text)
   /\ Notify.compound (Notify.analyzeSentiment text) <= 1)%Q
  /\ (0 <= Notify.positiveScore text <= 24)%Z
  /\ (0 <= Notify.negativeScore text <= 26)%Z.
Proof.
  assert (0 <= Notify.positiveScore text <= 24)%Z as Hp.
  { unfold Notify.positiveScore. rewrite notify_lexiconScore_filter.
    pose proof (length_filter (fun w => includes (toLowerCase text) w)
                              Notify.POSITIVE_WORDS) as H.
    change (length Notify.POSITIVE_WORDS) with 24 in H. lia. }
  assert (0 <= Notify.negativeScore text <= 26)%Z as Hn.
  { unfold Notify.negativeScore. rewrite notify_lexiconScore_filter.
    pose proof (length_filter (fun w => includes (toLowerCase text) w)
                              Notify.NEGATIVE_WORDS) as H.
    change (length Notify.NEGATIVE_WORDS) with 26 in H. lia. }
  split; [|done]. unfold Notify.analyzeSentiment. cbn [Notify.compound].
  apply round2_range, compoundOf_range; lia.
Qed.

(** X10: the negation step of [scout.js] moves hits from one count to the
    other and never changes their sum: the two returned counts add up to
    the number of hits of the two word lists in the lowercased text. *)
Theorem sentiment_counts_sum (text : string) :
  let s := Scout.analyzeSentiment text in
  (Scout.positive s + Scout.negative s
   = Z.of_nat (sum_list_with (fun w => countMatches w (toLowerCase text))
                             (Scout.POSITIVE_WORDS ++ Scout.NEGATIVE_WORDS)))%Z.
Proof.
  cbv zeta.
  assert (((Scout.scores text).1 + (Scout.scores text).2
           = Z.of_nat (sum_list_with (fun w => countMatches w (toLowerCase text))
                                     (Scout.POSITIVE_WORDS ++ Scout.NEGATIVE_WORDS)))%Z)
    as Hs.
  { unfold Scout.scores. rewrite negationLoop_total. cbn [fst snd].
    rewrite !scout_lexiconScore_sum, sum_list_with_app. lia. }
  unfold Scout.analyzeSentiment. destruct (Scout.scores text) as [p n]. exact Hs.
Qed.

(** ** Keywords *)

Lemma startsWith_empty (s : string) : startsWith s EmptyString = true.
Proof. by destruct s. Qed.


Lemma split_nonempty (sep : ascii) (s : string) : JSString.split sep s <> [].
Proof.
  induction s as [|c r IH]; cbn [JSString.split]; [done|].
  case_decide; [done|]. by destruct (JSString.split sep r).
Qed.




(** ** Lists given on the command line *)

Lemma split_length (sep : ascii) (s : string) :
  length (JSString.split sep s)
  = S (length (filter (fun c => c = sep) (list_ascii_of_string s))).
Proof.
  induction s as [|c r IH]; [done|].
  cbn [JSString.split list_ascii_of_string]. rewrite filter_cons.
  case_decide; cbn [length]; [by rewrite IH|].
  pose proof (split_nonempty sep r).
  destruct (JSString.split sep r); [done|]. by rewrite <- IH.
Qed.

Lemma split_app_separator (sep : ascii) (x s : string) :
  includes x (String sep EmptyString) = false ->
  JSString.split sep (x +:+ String sep s) = x :: JSString.split sep s.
Proof.
  induction x as [|c x IH]; intros Hx; str_norm.
  - cbn [JSString.split]. by rewrite decide_True.
  - cbn [includes startsWith] in Hx. apply orb_false_iff in Hx as [Hc Hx].
    cbn [JSString.split]. destruct (decide (c = sep)) as [->|Hne].
    + rewrite decide_True in Hc by done. by rewrite startsWith_empty in Hc.
    + by rewrite IH.
Qed.

Lemma split_no_separator (sep : ascii) (x : string) :
  includes x (String sep EmptyString) = false -> JSString.split sep x = [x].
Proof.
  induction x as [|c x IH]; intros Hx; [done|].
  cbn [includes startsWith] in Hx. apply orb_false_iff in Hx as [Hc Hx].
  cbn [JSString.split]. destruct (decide (c = sep)) as [->|Hne].
  - rewrite decide_True in Hc by done. by rewrite startsWith_empty in Hc.
  - by rewrite IH.
Qed.

Lemma split_join (sep : ascii) (l : list string) :
  l <> [] ->
  (forall x, x ∈ l -> includes x (String sep EmptyString) = false) ->
  JSString.split sep (JSArray.join (String sep EmptyString) l) = l.
Proof.
  induction l as [|x r IH]; intros Hne Hl; [done|].
  destruct r as [|y r].
  - cbn [JSArray.join]. apply split_no_separator, Hl, list_elem_of_here.
  - change (JSArray.join (String sep EmptyString) (x :: y :: r))
      with (x +:+ String sep EmptyString +:+ JSArray.join (String sep EmptyString) (y :: r)).
    str_norm. rewrite split_app_separator by (apply Hl, list_elem_of_here).
    f_equal. apply IH; [done|]. intros z Hz. apply Hl. apply elem_of_cons. by right.
Qed.

Lemma trimEnd_idemp (s : string) : JSString.trimEnd (JSString.trimEnd s) = JSString.trimEnd s.
Proof.
  induction s as [|c r IH]; [done|]. cbn [JSString.trimEnd].
  destruct (JSString.trimEnd r) as [|c' r'] eqn:E.
  - destruct (isSpace c) eqn:Hc; [done|]. cbn [JSString.trimEnd]. by rewrite Hc.
  - cbn [JSString.trimEnd]. cbn [JSString.trimEnd] in IH. by rewrite IH.
Qed.

(** A text with no white space at its start, and what [trimEnd] leaves of
    it. *)
Lemma trimStart_fixed (s : string) :
  match s with EmptyString => True | String c _ => isSpace c = false end ->
  JSString.trimStart s = s.
Proof. destruct s as [|c r]; [done|]. cbn [JSString.trimStart]. by intros ->. Qed.

Lemma trimStart_head (s : string) :
  match JSString.trimStart s with
  | EmptyString => True
  | String c _ => isSpace c = false
  end.
Proof.
  induction s as [|c r IH]; [done|]. cbn [JSString.trimStart].
  by destruct (isSpace c) eqn:E.
Qed.

Lemma trimEnd_head (s : string) :
  match s with EmptyString => True | String c _ => isSpace c = false end ->
  match JSString.trimEnd s with
  | EmptyString => True
  | String c _ => isSpace c = false
  end.
Proof.
  destruct s as [|c r]; [done|]. intros Hc. cbn [JSString.trimEnd].
  destruct (JSString.trimEnd r); by rewrite ?Hc.
Qed.

Lemma trim_idemp (s : string) : JSString.trim (JSString.trim s) = JSString.trim s.
Proof.
  unfold JSString.trim.
  rewrite (trimStart_fixed (JSString.trimEnd _)).
  - apply trimEnd_idemp.
  - apply trimEnd_head, trimStart_head.
Qed.

(** X12: the list read from a comma-separated argument is never empty and
    has one entry more than the argument has commas; its entries have no
    white space at either end; and a non-empty list of entries without
    commas or white space at the ends, joined by commas, is read back as
    itself. *)
Theorem parseList_entries (text : string) :
  JSString.parseList text <> []
  /\ length (JSString.parseList text)
     = S (length (filter (fun c => c = ","%char) (list_ascii_of_string text)))
  /\ (forall x, x ∈ JSString.parseList text -> JSString.trim x = x)
  /\ (forall l : list string,
        l <> [] ->
        (forall x, x ∈ l -> includes x "," = false /\ JSString.trim x = x) ->
        JSString.parseList (JSArray.join "," l) = l).
Proof.
  unfold JSString.parseList. split_and!.
  - pose proof (split_nonempty "," text). by destruct (JSString.split "," text).
  - by rewrite length_fmap, split_length.
  - intros x (p & -> & _)%list_elem_of_fmap. apply trim_idemp.
  - intros l Hne Hl. rewrite split_join; [|done|by intros x [? _]%Hl].
    rewrite <- (list_fmap_id l) at 2. apply list_fmap_ext.
    intros i x Hi. apply Hl. by eapply list_elem_of_lookup_2.
Qed.

(** ** Commands of the scheduler *)

Lemma addScheduledPost_effect (newId : string) (now : Data.Time)
    (store : Data.Store) (sub title content : string) (time : option Data.Time)
    (options : Scheduler.Options) :
  let r := Scheduler.addScheduledPost newId now store sub title content time options in
  match time with
  | None => r = (store, None)
  | Some t =>
      exists post,
        r.2 = Some post
        /\ Data.id post = newId /\ Data.status post = Data.pending
        /\ Data.scheduledTime post = t /\ Data.createdAt post = now
        /\ Data.cancelledAt post = None /\ Data.postedAt post = None
        /\ Data.scheduledPosts r.1
           = Some (loadJSON (Data.scheduledPosts store) [] ++ [post])
        /\ Data.keywordAlerts r.1 = Data.keywordAlerts store
        /\ Data.postHistory r.1 = Data.postHistory store
        /\ Data.seenMatches r.1 = Data.seenMatches store
        /\ post ∈ Scheduler.listScheduledPosts r.1 (Some Data.pending)
        /\ (forall t', post ∈ Scheduler.getDuePosts t' r.1 <-> (t <= t')%Z)
  end.
Proof.
  cbv zeta. unfold Scheduler.addScheduledPost. destruct time as [t|]; [|done].
  eexists. split; [reflexivity|]. cbn.
  split_and!; try done.
  - apply list_elem_of_filter. split; [done|]. apply elem_of_app. right.
    apply list_elem_of_here.
  - intros t'. unfold Scheduler.getDuePosts. cbn. rewrite list_elem_of_filter. cbn.
    split; [by intros [[_ H] _]|]. intros H. split; [done|].
    apply elem_of_app. right. apply list_elem_of_here.
Qed.


Lemma cancelPost_last (now' : Data.Time) (store : Data.Store)
    (posts : list Data.ScheduledPost) (post : Data.ScheduledPost) :
  Data.scheduledPosts store = Some (posts ++ [post]) ->
  (forall p, p ∈ posts -> Data.id p <> Data.id post) ->
  Scheduler.cancelPost now' store (Data.id post)
  = (Scheduler.saveSchedule store (posts ++ [Scheduler.cancelled_at now' post]),
     Some (Scheduler.cancelled_at now' post)).
Proof.
  intros Hs Hfresh. unfold Scheduler.cancelPost, loadJSON. rewrite Hs.
  cbn [default from_option id].
  assert (Scheduler.findPost (posts ++ [post]) (Data.id post) = Some (length posts)) as ->.
  { unfold Scheduler.findPost.
    assert (list_find (fun p => Data.id p = Data.id post) (posts ++ [post])
            = Some (length posts, post)) as ->; [|done].
    apply list_find_Some. split_and!.
    - by rewrite lookup_app_r, Nat.sub_diag.
    - done.
    - intros k y Hk Hlt. rewrite lookup_app_l in Hk by done.
      apply Hfresh. by eapply list_elem_of_lookup_2. }
  assert (alter (Scheduler.cancelled_at now') (length posts) (posts ++ [post])
          = posts ++ [Scheduler.cancelled_at now' post]) as ->.
  { rewrite (alter_insert _ _ _ post) by (by rewrite lookup_app_r, Nat.sub_diag).
    by rewrite insert_app_r_alt, Nat.sub_diag. }
  by rewrite lookup_app_r, Nat.sub_diag.
Qed.

(** X14: a post that was added under an identifier that no other post has
    is the one that [cancelPost] with that identifier cancels: the command
    returns it with the status cancelled and the time of the call, the
    schedule is the old one followed by it, and no post with that
    identifier is due any more. *)
Theorem cancelPost_after_add (newId : string) (now now' : Data.Time)
    (store : Data.Store) (sub title content : string) (t : Data.Time)
    (options : Scheduler.Options) :
  (forall p, p ∈ loadJSON (Data.scheduledPosts store) [] -> Data.id p <> newId) ->
  let r := Scheduler.addScheduledPost newId now store sub title content (Some t) options in
  let c := Scheduler.cancelPost now' r.1 newId in
  exists post,
    r.2 = Some post
    /\ c.2 = Some (Scheduler.cancelled_at now' post)
    /\ Data.scheduledPosts c.1
       = Some (loadJSON (Data.scheduledPosts store) [] ++ [Scheduler.cancelled_at now' post])
    /\ (forall t' p, p ∈ Scheduler.getDuePosts t' c.1 -> Data.id p <> newId).
Proof.
  intros Hfresh. cbv zeta.
  pose proof (addScheduledPost_effect newId now store sub title content (Some t) options)
    as (post & Hr & Hid & _ & _ & _ & _ & _ & Hs & _).
  exists post. split; [done|]. subst newId.
  rewrite (cancelPost_last now' _ _ post Hs Hfresh). cbn [fst snd].
  split_and!; [done..|].
  intros t' p. unfold Scheduler.getDuePosts.
  cbn [Scheduler.saveSchedule Data.scheduledPosts loadJSON default].
  intros [[Hst _] [Hin| ->%list_elem_of_singleton]%elem_of_app]%list_elem_of_filter.
  - by apply Hfresh.
  - done.
Qed.

Lemma cancelPost_after_add_witness :
  let r := Scheduler.addScheduledPost "x2" 5%Z launchStore "SaaS" "T" "C" (Some 50%Z)
             (Scheduler.mkOptions None false false) in
  (forall p, p ∈ loadJSON (Data.scheduledPosts launchStore) [] -> Data.id p <> "x2")
  /\ Data.status <$> loadJSON (Data.scheduledPosts (Scheduler.cancelPost 9%Z r.1 "x2").1) []
     = [Data.pending; Data.cancelled].
Proof.
  cbv zeta.
  assert (forall p, p ∈ loadJSON (Data.scheduledPosts launchStore) [] -> Data.id p <> "x2")
    as H.
  { simpl. intros p ->%list_elem_of_singleton. discriminate. }
  split; [exact H|].
  pose proof (cancelPost_after_add "x2" 5%Z 9%Z launchStore "SaaS" "T" "C" 50%Z
                (Scheduler.mkOptions None false false) H) as Hc.
  cbv zeta in Hc. destruct Hc as (post & _ & _ & Hs & _).
  apply (f_equal (fun file => Data.status <$> loadJSON file [])) in Hs. exact Hs.
Defined.

(** X15: when [markPosted] finds the post, it rewrites the first post with
    the identifier as posted at the time of the call, with the link when one
    is given and the old link otherwise, keeps the length of the schedule,
    and appends the rewritten post to the history. *)
Theorem markPosted_history (now : Data.Time) (store : Data.Store)
    (postId : string) (url : option string) (p : Data.ScheduledPost) :
  (Scheduler.markPosted now store postId url).2 = Some p ->
  let r := Scheduler.markPosted now store postId url in
  let posts := loadJSON (Data.scheduledPosts store) [] in
  Data.status p = Data.posted /\ Data.postedAt p = Some now /\ Data.id p = postId
  /\ Data.postHistory r.1 = Some (loadJSON (Data.postHistory store) [] ++ [p])
  /\ exists idx p0,
       posts !! idx = Some p0 /\ Data.id p0 = postId
       /\ (forall j q, posts !! j = Some q -> j < idx -> Data.id q <> postId)
       /\ p = Scheduler.posted_at now url p0
       /\ Data.scheduledPosts r.1 = Some (<[idx := p]> posts)
       /\ Data.redditUrl p
          = match url with
            | Some EmptyString | None => Data.redditUrl p0
            | Some u => Some u
            end.
Proof.
  cbv zeta. unfold Scheduler.markPosted.
  destruct (Scheduler.findPost _ postId) as [idx|] eqn:E; [|done].
  unfold Scheduler.findPost in E.
  destruct (list_find _ _) as [[j p0]|] eqn:Hfind; [|done]. injection E as ->.
  apply list_find_Some in Hfind as (Hp0 & Hid & Hfirst).
  cbn [fst snd Scheduler.saveHistory Scheduler.saveSchedule Data.postHistory
       Data.scheduledPosts].
  rewrite list_lookup_alter_eq, Hp0. cbn [fmap option_fmap option_map].
  intros [= <-]. cbn [option_list]. split_and!; [done..|].
  exists idx, p0. split_and!; [done..| | ].
  - f_equal. by apply alter_insert.
  - cbn [Data.redditUrl Scheduler.posted_at]. by destruct url as [[|c u]|].
Qed.

Lemma markPosted_history_witness :
  exists p, (Scheduler.markPosted 9%Z launchStore "x1" (Some "https://x")).2 = Some p
            /\ Data.postHistory (Scheduler.markPosted 9%Z launchStore "x1" (Some "https://x")).1
               = Some (loadJSON (Data.postHistory launchStore) [] ++ [p]).
Proof.
  eexists. split; [reflexivity|].
  exact (proj1 (proj2 (proj2 (proj2
    (markPosted_history 9%Z launchStore "x1" (Some "https://x") _ eq_refl))))).
Defined.

(** ** Commands on alerts *)

(** X16: [removeAlert] keeps, in their order, the alerts with another
    identifier and drops every alert with the given one; it returns true
    exactly when there was such an alert; it writes the alerts file in
    either case, and afterwards [toggleAlert] with the identifier finds
    nothing. *)
Theorem removeAlert_removes (store : Data.Store) (anId : string) :
  let alerts := loadJSON (Data.keywordAlerts store) [] in
  let r := Scheduler.removeAlert store anId in
  let alerts' := loadJSON (Data.keywordAlerts r.1) [] in
  (forall a, a ∈ alerts' <-> a ∈ alerts /\ Data.alertId a <> anId)
  /\ alerts' `sublist_of` alerts
  /\ (r.2 = true <-> exists a, a ∈ alerts /\ Data.alertId a = anId)
  /\ Data.keywordAlerts r.1 = Some alerts'
  /\ (forall flag, Scheduler.toggleAlert r.1 anId flag = (r.1, None))
  /\ Data.scheduledPosts r.1 = Data.scheduledPosts store
  /\ Data.seenMatches r.1 = Data.seenMatches store.
Proof.
  cbv zeta. unfold Scheduler.removeAlert.
  cbn [fst snd Scheduler.saveAlerts Data.keywordAlerts Data.scheduledPosts
       Data.seenMatches].
  set (alerts := loadJSON (Data.keywordAlerts store) []).
  change (loadJSON (Some ?l) []) with l.
  split_and!; [| | |done| |done..].
  - intros a. rewrite list_elem_of_filter. tauto.
  - apply sublist_filter.
  - rewrite bool_decide_eq_true. split.
    + intros Hlt.
      destruct (decide (Exists (fun a => Data.alertId a = anId) alerts)) as [He|Hn].
      * apply Exists_exists in He as (a & Ha & Hid). by exists a.
      * rewrite filter_all_true in Hlt; [lia|].
        intros a Ha Hid. apply Hn, Exists_exists. by exists a.
    + intros (a & Ha & Hid). eapply length_filter_lt; [exact Ha|]. by intros H.
  - intros flag. unfold Scheduler.toggleAlert.
    cbn [Scheduler.saveAlerts Data.keywordAlerts].
    change (loadJSON (Some ?l) []) with l.
    assert (Scheduler.findAlert (filter (fun a => Data.alertId a <> anId) alerts) anId
            = None) as ->; [|done].
    apply findAlert_None_iff. by intros a [H _]%list_elem_of_filter.
Qed.

(** X17: when [toggleAlert] finds the alert, it sets the [enabled] flag of
    the first alert with the identifier and changes nothing else; the same
    command again changes nothing more. *)
Theorem toggleAlert_sets_flag (store : Data.Store) (anId : string) (flag : bool)
    (a' : Data.Alert) :
  (Scheduler.toggleAlert store anId flag).2 = Some a' ->
  let alerts := loadJSON (Data.keywordAlerts store) [] in
  let r := Scheduler.toggleAlert store anId flag in
  Data.enabled a' = flag /\ Data.alertId a' = anId
  /\ (exists idx a,
        alerts !! idx = Some a /\ Data.alertId a = anId
        /\ (forall j b, alerts !! j = Some b -> j < idx -> Data.alertId b <> anId)
        /\ a' = Scheduler.enabled_as flag a
        /\ Data.keywords a' = Data.keywords a /\ Data.subreddits a' = Data.subreddits a
        /\ Data.matchCount a' = Data.matchCount a
        /\ Data.lastChecked a' = Data.lastChecked a
        /\ Data.keywordAlerts r.1 = Some (<[idx := a']> alerts))
  /\ Scheduler.toggleAlert r.1 anId flag = r.
Proof.
  cbv zeta. unfold Scheduler.toggleAlert at 1 2 4.
  destruct (Scheduler.findAlert _ anId) as [idx|] eqn:E; [|done].
  set (alerts := loadJSON (Data.keywordAlerts store) []) in *.
  pose proof E as E'. unfold Scheduler.findAlert in E'.
  destruct (list_find _ _) as [[j a]|] eqn:Hfind; [|done]. injection E' as ->.
  apply list_find_Some in Hfind as (Ha & Hid & Hfirst).
  cbn [fst snd Scheduler.saveAlerts Data.keywordAlerts].
  rewrite list_lookup_alter_eq, Ha. cbn [fmap option_fmap option_map].
  intros [= <-]. rewrite (alter_insert _ _ _ a Ha).
  split_and!; [done..| |].
  - exists idx, a. by split_and!.
  - unfold Scheduler.toggleAlert.
    cbn [Scheduler.saveAlerts Data.keywordAlerts].
    change (loadJSON (Some ?l) []) with l.
    assert (Scheduler.findAlert (<[idx := Scheduler.enabled_as flag a]> alerts) anId
            = Some idx) as ->.
    { unfold Scheduler.findAlert.
      assert (list_find (fun b => Data.alertId b = anId)
                        (<[idx := Scheduler.enabled_as flag a]> alerts)
              = Some (idx, Scheduler.enabled_as flag a)) as ->; [|done].
      apply list_find_Some. split_and!.
      - apply list_lookup_insert_eq. by eapply lookup_lt_Some.
      - done.
      - intros k b Hk Hlt. rewrite list_lookup_insert_ne in Hk by lia.
        by eapply Hfirst. }
    rewrite list_lookup_alter_eq.
    rewrite list_lookup_insert_eq by (by eapply lookup_lt_Some).
    cbn [fmap option_fmap option_map].
    rewrite (alter_insert _ _ _ (Scheduler.enabled_as flag a))
      by (apply list_lookup_insert_eq; by eapply lookup_lt_Some).
    rewrite list_insert_insert_eq. fold alerts. rewrite E.
    rewrite list_lookup_alter_eq, Ha, (alter_insert _ _ _ a Ha). done.
Qed.

Lemma toggleAlert_sets_flag_witness :
  exists a', (Scheduler.toggleAlert launchStore "a1" false).2 = Some a'
             /\ Data.enabled a' = false
             /\ Scheduler.toggleAlert (Scheduler.toggleAlert launchStore "a1" false).1
                                      "a1" false
                = Scheduler.toggleAlert launchStore "a1" false.
Proof.
  eexists. split; [reflexivity|].
  pose proof (toggleAlert_sets_flag launchStore "a1" false _ eq_refl) as H.
  cbv zeta in H. destruct H as (H1 & _ & _ & H4). exact (conj H1 H4).
Defined.

(** X18: an alert that was added under an identifier that no other alert
    has is removed again by [removeAlert] with that identifier, which
    returns true and leaves the alerts that were there before, in their
    order. *)
Theorem removeAlert_after_add (newId : string) (now : Data.Time)
    (store : Data.Store) (keywords subreddits : list string) (via : option string) :
  (forall a, a ∈ loadJSON (Data.keywordAlerts store) [] -> Data.alertId a <> newId) ->
  let added := Scheduler.addKeywordAlert newId now store keywords subreddits via in
  Data.alertId added.2 = newId /\ Data.enabled added.2 = true
  /\ Data.matchCount added.2 = 0 /\ Data.lastChecked added.2 = None
  /\ added.2 ∈ Scheduler.listAlerts added.1 true
  /\ Scheduler.removeAlert added.1 newId
     = (Scheduler.saveAlerts store (loadJSON (Data.keywordAlerts store) []), true).
Proof.
  intros Hfresh. cbv zeta. unfold Scheduler.addKeywordAlert. cbn [fst snd].
  split_and!; [done..| |].
  - unfold Scheduler.listAlerts. cbn [Scheduler.saveAlerts Data.keywordAlerts].
    change (loadJSON (Some ?l) []) with l.
    apply list_elem_of_filter. split; [done|]. apply elem_of_app. right.
    apply list_elem_of_here.
  - unfold Scheduler.removeAlert. cbn [Scheduler.saveAlerts Data.keywordAlerts].
    change (loadJSON (Some ?l) []) with l.
    rewrite filter_app, filter_all_true by done.
    rewrite filter_cons_False by (by intros H). rewrite filter_nil, app_nil_r.
    f_equal. apply bool_decide_eq_true. rewrite length_app. simpl. lia.
Qed.

Lemma removeAlert_after_add_witness :
  (forall a, a ∈ loadJSON (Data.keywordAlerts launchStore) [] -> Data.alertId a <> "a2")
  /\ (Scheduler.removeAlert
        (Scheduler.addKeywordAlert "a2" 3%Z launchStore ["crm"] ["SaaS"] None).1 "a2").2
     = true.
Proof.
  assert (forall a, a ∈ loadJSON (Data.keywordAlerts launchStore) [] ->
                    Data.alertId a <> "a2") as H.
  { simpl. intros a ->%list_elem_of_singleton. discriminate. }
  split; [exact H|].
  pose proof (removeAlert_after_add "a2" 3%Z launchStore ["crm"] ["SaaS"] None H) as Hr.
  cbv zeta in Hr. destruct Hr as (_ & _ & _ & _ & _ & Hr).
  exact (f_equal snd Hr).
Defined.

(** ** More on the check cycles *)

Lemma checkLoop_matches (fetch : Reddit.Fetch) (clock : nat -> Data.Time)
    (l : list Data.Alert) :
  forall (k : nat) (st : list Data.Alert * list Scheduler.Match),
  (Scheduler.checkLoop fetch clock k l st).2
  = st.2 ++ (l ≫= Scheduler.matchesOfAlert fetch).
Proof.
  induction l as [|a rest IH]; intros k st.
  - cbn [Scheduler.checkLoop]. by rewrite app_nil_r.
  - cbn [Scheduler.checkLoop]. rewrite IH, bind_cons, app_assoc. done.
Qed.

Lemma scheduler_checkAlerts_matches (fetch : Reddit.Fetch) (clock : nat -> Data.Time)
    (store : Data.Store) :
  Scheduler.matches (Scheduler.checkAlerts fetch clock store).2
  = filter (fun a => Data.enabled a) (loadJSON (Data.keywordAlerts store) [])
    ≫= Scheduler.matchesOfAlert fetch.
Proof.
  unfold Scheduler.checkAlerts. case_bool_decide as Hlen.
  - cbn [snd Scheduler.matches].
    destruct (filter _ _); [done | simpl in Hlen; lia].
  - cbn [snd Scheduler.matches]. by rewrite checkLoop_matches.
Qed.

(** X19: the cycle of [scheduler.js] reports as checked the number of
    enabled alerts, and every match it emits belongs to an enabled alert, to
    one of the communities of that alert and to a post of the listing of
    that community; the keywords of the match are keywords of the alert,
    there is at least one, and each occurs, lowercased, in the lowercased
    text of the post.  With no enabled alert it writes nothing. *)
Theorem scheduler_matches_of_enabled_alerts (fetch : Reddit.Fetch)
    (clock : nat -> Data.Time) (store : Data.Store) :
  let alerts := loadJSON (Data.keywordAlerts store) [] in
  let r := Scheduler.checkAlerts fetch clock store in
  Scheduler.checked r.2 = length (filter (fun a => Data.enabled a) alerts)
  /\ (forall m, m ∈ Scheduler.matches r.2 ->
        exists a children child,
          a ∈ alerts /\ Data.enabled a = true
          /\ Scheduler.matchAlertId m = Data.alertId a
          /\ Scheduler.matchSubreddit m ∈ Data.subreddits a
          /\ fetch (Scheduler.matchSubreddit m) 25 = Some children
          /\ child ∈ children
          /\ Scheduler.mpId (Scheduler.matchPost m) = Reddit.id (Reddit.data child)
          /\ Scheduler.matchKeywords m <> []
          /\ (forall kw, kw ∈ Scheduler.matchKeywords m ->
                kw ∈ Data.keywords a
                /\ substringOf (toLowerCase kw)
                     (toLowerCase (Notify.rawText (Reddit.data child)))))
  /\ (filter (fun a => Data.enabled a) alerts = [] -> r = (store, Scheduler.mkCheckResult 0 [])).
Proof.
  cbv zeta. split_and!.
  - unfold Scheduler.checkAlerts. case_bool_decide as Hlen; [by rewrite Hlen|done].
  - intros m. rewrite scheduler_checkAlerts_matches.
    intros (a & Hm & [Hen Ha]%list_elem_of_filter)%list_elem_of_bind.
    unfold Scheduler.matchesOfAlert in Hm.
    apply list_elem_of_bind in Hm as (sub & Hm & Hsub).
    unfold Scheduler.matchesOfSubreddit in Hm.
    destruct (fetch sub 25) as [children|] eqn:Hf; [|by apply elem_of_nil in Hm].
    apply list_elem_of_omap in Hm as (child & Hchild & Hm).
    unfold Scheduler.matchOfPost in Hm. case_bool_decide as Hlen; [|done].
    injection Hm as <-. cbn [Scheduler.matchAlertId Scheduler.matchSubreddit
      Scheduler.matchPost Scheduler.mpId Scheduler.matchKeywords].
    exists a, children, child. split_and!; [done | by apply Is_true_true | done..| |].
    + intros E. rewrite E in Hlen. simpl in Hlen. lia.
    + intros kw [Hinc Hkw]%list_elem_of_filter. split; [done|].
      by apply includes_substringOf, Is_true_true.
  - intros Hnone. unfold Scheduler.checkAlerts. by rewrite Hnone.
Qed.

Lemma matchOfPost_itemNames (a : Data.Alert) (sub : string) (c : Reddit.Child) :
  is_Some (Scheduler.matchOfPost a sub c)
  <-> itemNames (Data.keywords a, sub, c) <> [].
Proof.
  unfold Scheduler.matchOfPost, itemNames, Notify.rawText. cbn [fst snd].
  case_bool_decide as Hlen.
  - split; [|by eexists]. intros _ E. rewrite E in Hlen. simpl in Hlen. lia.
  - split; [by intros [? ?]|]. intros Hne. destruct (filter _ _); [done | simpl in Hlen; lia].
Qed.

Lemma matchesOfAlert_length (fetch : Reddit.Fetch) (a : Data.Alert) :
  length (Scheduler.matchesOfAlert fetch a)
  = length (filter (fun it => itemNames it <> []) (itemsOfAlert fetch a)).
Proof.
  unfold Scheduler.matchesOfAlert, itemsOfAlert.
  induction (Data.subreddits a) as [|sub subs IH]; [done|].
  rewrite !bind_cons, filter_app, !length_app, IH. f_equal.
  unfold Scheduler.matchesOfSubreddit, itemsOfSub.
  destruct (fetch sub 25) as [posts|]; [|done].
  induction posts as [|c posts IHp]; [done|].
  cbn [omap list_omap fmap list_fmap]. rewrite filter_cons.
  pose proof (matchOfPost_itemNames a sub c) as Hc.
  destruct (Scheduler.matchOfPost a sub c) as [m|].
  - rewrite decide_True by (apply Hc; by eexists). cbn [length]. by f_equal.
  - rewrite decide_False; [done|]. intros Hne. apply Hc in Hne. by destruct Hne.
Qed.

Lemma matchesOfAlerts_length (fetch : Reddit.Fetch) (alerts : list Data.Alert) :
  length (alerts ≫= Scheduler.matchesOfAlert fetch)
  = length (filter (fun it => itemNames it <> []) (itemsOfAlerts fetch alerts)).
Proof.
  unfold itemsOfAlerts. induction alerts as [|a l IH]; [done|].
  by rewrite !bind_cons, filter_app, !length_app, IH, matchesOfAlert_length.
Qed.

Lemma sublist_filter_mono {A} (P : A -> Prop) `{!forall x, Decision (P x)}
    (l k : list A) :
  l `sublist_of` k -> filter P l `sublist_of` filter P k.
Proof.
  induction 1 as [|x l k Hs IH|x l k Hs IH]; [done| |].
  - rewrite !filter_cons. case_decide; [by apply sublist_skip | done].
  - rewrite filter_cons. case_decide; [by apply sublist_cons | done].
Qed.

(** X20: over the same alerts file and the same listings, the cycle of
    [notify.js], which emits a post once at most, never emits more matches
    than the cycle of [scheduler.js], which emits a post once for every
    enabled alert that it matches. *)
Theorem notify_emits_no_more_than_scheduler (fetch : Reddit.Fetch)
    (clock : nat -> Data.Time) (store : Data.Store) :
  length (Notify.checkAlerts fetch store).2
  <= length (Scheduler.matches (Scheduler.checkAlerts fetch clock store).2).
Proof.
  rewrite scheduler_checkAlerts_matches.
  destruct (notify_checkAlerts_spec fetch store) as (emitted & Hsub & -> & Hem & _).
  rewrite length_fmap.
  rewrite matchesOfAlerts_length.
  rewrite <- (filter_all_true (fun it => itemNames it <> []) emitted)
    by (intros it Hit; by destruct (Hem it Hit)).
  apply sublist_length. by apply sublist_filter_mono.
Qed.

Lemma startsWith_append (w s : string) : startsWith (w +:+ s) w = true.
Proof. apply startsWith_spec. by exists s. Qed.

Lemma checkCompetitors_items (fetch : Reddit.Fetch) (store : Data.Store) :
  let config := loadJSON (Data.competitorsFile store)
                  {| Data.competitors := []; Data.competitorSubreddits := [] |} in
  Data.competitors config <> [] -> Data.competitorSubreddits config <> [] ->
  Notify.checkCompetitors fetch store
  = let st := foldl (checkItem Notify.competitorKey) (Notify.loadSeen store, [])
                (Data.competitorSubreddits config
                   ≫= itemsOfSub fetch 50 (Data.competitors config)) in
    (Notify.saveSeen store st.1, st.2).
Proof.
  cbv zeta. intros Hc Hs. unfold Notify.checkCompetitors.
  rewrite (bool_decide_false (Data.competitors _ = [])) by done.
  rewrite (bool_decide_false (Data.competitorSubreddits _ = [])) by done.
  cbn [orb]. rewrite foldl_bind.
  rewrite (foldl_ext_eq _ (fun a x => foldl (checkItem Notify.competitorKey) a
                                        (itemsOfSub fetch 50 (Data.competitors
                                           (loadJSON (Data.competitorsFile store)
                                              {| Data.competitors := [];
                                                 Data.competitorSubreddits := [] |})) x)));
    [done|].
  intros st sub. apply checkSubreddit_items.
Qed.

(** X21: the competitor check of [notify.js] does nothing and writes
    nothing when the configuration names no competitor or no community.
    Otherwise it emits a match only for a post whose key, the identifier
    with the prefix "comp:", is not in the seen set and whose text names a
    competitor; it adds exactly the keys of the emitted matches, saves the
    last 1000 keys and leaves the alerts alone.  It never adds a key
    without the prefix, so it hides no post from the keyword check; and when
    no key was dropped, a second check over the same listings emits
    nothing. *)
Theorem checkCompetitors_cycle (fetch : Reddit.Fetch) (store : Data.Store) :
  let config := loadJSON (Data.competitorsFile store)
                  {| Data.competitors := []; Data.competitorSubreddits := [] |} in
  let seen := Notify.loadSeen store in
  let r := Notify.checkCompetitors fetch store in
  (Data.competitors config = [] \/ Data.competitorSubreddits config = [] ->
   r = (store, []))
  /\ (Data.competitors config <> [] -> Data.competitorSubreddits config <> [] ->
      exists emitted : list Item,
        emitted `sublist_of`
          (Data.competitorSubreddits config
             ≫= itemsOfSub fetch 50 (Data.competitors config))
        /\ r.2 = itemMatch <$> emitted
        /\ (forall it, it ∈ emitted ->
              (("comp:" +:+ Reddit.id (Reddit.data it.2)) ∉ seen)
              /\ itemNames it <> [])
        /\ Data.seenMatches r.1
           = Some (sliceLast 1000
                     (seen ++ ((fun it => "comp:" +:+ Reddit.id (Reddit.data it.2))
                               <$> emitted)))
        /\ Data.keywordAlerts r.1 = Data.keywordAlerts store
        /\ (forall k, startsWith k "comp:" = false ->
              k ∈ Notify.loadSeen r.1 -> k ∈ seen)
        /\ (length (seen ++ ((fun it => "comp:" +:+ Reddit.id (Reddit.data it.2))
                             <$> emitted)) <= 1000 ->
            Notify.checkCompetitors fetch r.1 = (r.1, []))).
Proof.
  cbv zeta.
  set (config := loadJSON (Data.competitorsFile store) _).
  set (seen := Notify.loadSeen store). split.
  - unfold Notify.checkCompetitors. fold config.
    intros [H|H]; rewrite H; [done|]. by rewrite orb_true_r.
  - intros Hc Hs.
    rewrite (checkCompetitors_items fetch store Hc Hs). cbv zeta. fold config seen.
    set (items := Data.competitorSubreddits config ≫= _).
    pose proof (checkItems_covered Notify.competitorKey items (seen, [])) as Hcov.
    destruct (checkItems_emitted Notify.competitorKey items (seen, []))
      as (emitted & Hsub & H1 & H2 & H3 & H4).
    cbn [fst snd] in H1, H2, H3. rewrite app_nil_l in H2.
    rewrite H1 in Hcov. rewrite H1, H2. cbn [fst snd].
    change (itemKey Notify.competitorKey <$> emitted)
      with ((fun it => "comp:" +:+ Reddit.id (Reddit.data it.2)) <$> emitted) in *.
    set (seen' := seen ++ _) in *.
    assert (NoDup seen') as Hnd.
    { apply NoDup_app. split_and!; [apply loadSeen_NoDup | | done].
      intros k Hk (it & -> & Hit)%list_elem_of_fmap. by destruct (H3 it Hit). }
    exists emitted. split_and!; [done..| |].
    + intros k Hk. rewrite loadSeen_saveSeen by done. unfold sliceLast.
      intros Hin. assert (k ∈ seen') as [Hin'|Hin']%elem_of_app; [|done|].
      { eapply elem_of_sublist; [exact Hin|]. apply sublist_drop. }
      apply list_elem_of_fmap in Hin' as (it & -> & _).
      by rewrite startsWith_append in Hk.
    + intros Hlen.
      rewrite (checkCompetitors_items fetch (Notify.saveSeen store seen')) by done.
      cbv zeta.
      change (Data.competitorsFile (Notify.saveSeen store seen'))
        with (Data.competitorsFile store).
      fold config. fold items.
      rewrite loadSeen_saveSeen, sliceLast_all by done.
      rewrite checkItems_idle by done. done.
Qed.


(** ** Threads *)

Lemma extractComment_unfold (kind : string) (c : Thread.CommentData)
    (replies : option (list Thread.Thing)) (d : nat) :
  Thread.extractComment d (Thread.mkThing kind c replies)
  = if decide (kind = "t1")
    then Thread.commentOf d c :: Thread.extractComments (default [] replies) (S d)
    else [].
Proof.
  cbn [Thread.extractComment]. case_decide; [|done]. f_equal.
  destruct replies as [children|]; [|done].
  cbn [default from_option id]. unfold Thread.extractComments.
  induction children as [|x r IH]; [done|]. cbn. by rewrite IH.
Qed.

Lemma climbs_weaken (p q : nat) (l : list nat) :
  p <= q -> Terms.climbs p l -> Terms.climbs q l.
Proof. destruct l as [|x r]; [done|]. cbn. intros Hpq [Hx Hr]. split; [lia|done]. Qed.

Lemma climbs_app_nested (d : nat) (l1 l2 : list nat) : forall p,
  d <= p -> Forall (fun x => d <= x) l1 -> Terms.climbs p l1 ->
  Terms.nestedFrom d l2 -> Terms.climbs p (l1 ++ l2).
Proof.
  induction l1 as [|x r IH]; intros p Hp Hall Hc [Hall2 Hn].
  - destruct l2 as [|y r2]; [done|]. destruct Hn as [-> Hr2]. cbn. split; [lia|done].
  - apply Forall_cons in Hall as [Hx Hall]. destruct Hc as [Hxp Hc]. cbn. split; [done|].
    by apply IH.
Qed.

Lemma nestedFrom_app (d : nat) (l1 l2 : list nat) :
  Terms.nestedFrom d l1 -> Terms.nestedFrom d l2 -> Terms.nestedFrom d (l1 ++ l2).
Proof.
  intros [Hall1 Hn1] Hn2. destruct l1 as [|x r]; [done|].
  destruct Hn1 as [-> Hr]. split.
  - apply Forall_app. split; [done | apply Hn2].
  - cbn. split; [done|]. apply Forall_cons in Hall1 as [_ Hall1].
    by apply (climbs_app_nested d).
Qed.

Lemma nestedFrom_cons (d : nat) (l : list nat) :
  Terms.nestedFrom (S d) l -> Terms.nestedFrom d (d :: l).
Proof.
  intros [Hall Hn]. split.
  - apply Forall_cons. split; [done|]. eapply Forall_impl; [exact Hall|]. cbn. lia.
  - split; [done|]. destruct l as [|x r]; [done|]. destruct Hn as [-> Hr]. by split.
Qed.

Lemma extractComment_nested (t : Thread.Thing) : forall d,
  Terms.nestedFrom d (Thread.depth <$> Thread.extractComment d t).
Proof.
  induction t as [kind c replies IH] using Thread.Thing_nested_ind. intros d.
  rewrite extractComment_unfold. case_decide; [|by split].
  rewrite fmap_cons. cbn [Thread.commentOf Thread.depth]. apply nestedFrom_cons.
  unfold Thread.extractComments.
  induction IH as [|x r Hx Hr IHr]; [by split|].
  cbn. rewrite fmap_app. apply nestedFrom_app; [apply Hx | apply IHr].
Qed.

Lemma extractComments_nested (children : list Thread.Thing) (d : nat) :
  Terms.nestedFrom d (Thread.depth <$> Thread.extractComments children d).
Proof.
  unfold Thread.extractComments. induction children as [|x r IH]; [by split|].
  cbn. rewrite fmap_app. apply nestedFrom_app; [apply extractComment_nested | apply IH].
Qed.

Lemma climbs_lookup (l : list nat) : forall p i a b,
  Terms.climbs p l -> l !! i = Some a -> l !! S i = Some b -> b <= S a.
Proof.
  induction l as [|x r IH]; intros p i a b Hc Ha Hb; [done|].
  destruct Hc as [Hx Hr]. destruct i as [|i].
  - cbn in Ha, Hb. simplify_eq. destruct r as [|y r]; [done|].
    cbn in Hb. simplify_eq. by destruct Hr.
  - cbn in Ha. change ((x :: r) !! S (S i)) with (r !! S i) in Hb. by eapply IH.
Qed.

(** X22. The flattened comments of a thread follow the tree: in
    [extractComments(children, d)] no comment has a depth below [d], the
    first comment (if any) has the depth [d], and from one comment to the
    next the depth goes up by at most one (a reply comes right after its
    parent, or after the replies of an earlier sibling). *)
Theorem extractComments_depths (children : list Thread.Thing) (d : nat) :
  let ds := Thread.depth <$> Thread.extractComments children d in
  Forall (fun x => d <= x) ds
  /\ (forall x, head ds = Some x -> x = d)
  /\ (forall i a b, ds !! i = Some a -> ds !! S i = Some b -> b <= S a).
Proof.
  cbv zeta. pose proof (extractComments_nested children d) as [Hall Hn].
  split; [done|]. destruct (Thread.depth <$> Thread.extractComments children d) as [|x r].
  - by split.
  - destruct Hn as [-> Hr]. split; [by intros x [= <-]|].
    intros i a b Ha Hb. eapply (climbs_lookup (d :: r) d); [|exact Ha|exact Hb].
    split; [lia|done].
Qed.

(** X23. The comments of [extractComments(children, d)] at the depth [d]
    itself are the children of kind t1, each once and in their order; the
    children of another kind are left out with all their replies. *)
Theorem extractComments_top_level (children : list Thread.Thing) (d : nat) :
  filter (fun c => Thread.depth c = d) (Thread.extractComments children d)
  = (fun t => Thread.commentOf d (Thread.thingData t))
    <$> filter (fun t => Thread.thingKind t = "t1") children.
Proof.
  unfold Thread.extractComments. induction children as [|[kind c replies] r IH]; [done|].
  cbn [mbind list_bind]. rewrite filter_app, filter_cons.
  cbn [Thread.thingKind]. rewrite extractComment_unfold.
  case_decide as Hk.
  - rewrite filter_cons. cbn [Thread.commentOf Thread.depth]. rewrite decide_True by done.
    rewrite fmap_cons. cbn [Thread.thingData]. rewrite <- app_comm_cons. f_equal.
    rewrite <- IH. rewrite filter_all_false; [done|].
    intros x Hx. pose proof (extractComments_nested (default [] replies) (S d)) as [Hall _].
    rewrite Forall_fmap, Forall_forall in Hall. specialize (Hall x Hx). cbn in Hall. lia.
  - rewrite filter_nil. exact IH.
Qed.


(** ** The CSV export *)

Lemma includes_char_cons (a c : ascii) (s : string) :
  includes (String a s) (String c EmptyString)
  = bool_decide (c = a) || includes s (String c EmptyString).
Proof.
  cbn [includes startsWith]. destruct (decide (c = a)) as [->|Hne].
  - by rewrite startsWith_empty, bool_decide_eq_true_2.
  - by rewrite bool_decide_eq_false_2.
Qed.

Lemma includes_char_app (c : ascii) (a b : string) :
  includes (a +:+ b) (String c EmptyString)
  = includes a (String c EmptyString) || includes b (String c EmptyString).
Proof.
  induction a as [|x a IH]; str_norm; [done|].
  by rewrite !includes_char_cons, IH, orb_assoc.
Qed.

Lemma includes_char_doubleQuotes (c : ascii) (v : string) :
  includes (Csv.doubleQuotes v) (String c EmptyString) = includes v (String c EmptyString).
Proof.
  induction v as [|a v IH]; [done|]. cbn [Csv.doubleQuotes].
  destruct (decide (a = Csv.quote)) as [->|Hne]; rewrite !includes_char_cons, IH.
  - by destruct (bool_decide (c = Csv.quote)).
  - done.
Qed.

Lemma doubleQuotes_inj (a : string) : forall b,
  Csv.doubleQuotes a = Csv.doubleQuotes b -> a = b.
Proof.
  induction a as [|x a IH]; intros [|y b] H; cbn [Csv.doubleQuotes] in H.
  - done.
  - by destruct (decide (y = Csv.quote)).
  - by destruct (decide (x = Csv.quote)).
  - destruct (decide (x = Csv.quote)) as [->|Hx], (decide (y = Csv.quote)) as [->|Hy].
    + injection H as H. by rewrite (IH b H).
    + injection H as H1 H2. congruence.
    + injection H as H1 H2. congruence.
    + injection H as -> H. by rewrite (IH b H).
Qed.

Lemma append_char_inj (c : ascii) (a : string) : forall b,
  a +:+ String c EmptyString = b +:+ String c EmptyString -> a = b.
Proof.
  induction a as [|x a IH]; intros [|y b] H; str_norm in H.
  - done.
  - injection H as _ H. destruct b; str_norm in H; discriminate H.
  - injection H as _ H. destruct a; str_norm in H; discriminate H.
  - injection H as -> H. by rewrite (IH b H).
Qed.

(** X24. The escaping of [toCSV] loses nothing: two texts with the same
    escaped field are the same text. *)
Theorem escapeField_injective (a b : string) :
  Csv.escapeField a = Csv.escapeField b -> a = b.
Proof.
  unfold Csv.escapeField. cbv zeta.
  rewrite !(includes_char_doubleQuotes ","), !(includes_char_doubleQuotes Csv.quote),
    !(includes_char_doubleQuotes Csv.newline).
  destruct (includes a "," || includes a (String Csv.quote EmptyString)
            || includes a (String Csv.newline EmptyString)) eqn:Ha,
           (includes b "," || includes b (String Csv.quote EmptyString)
            || includes b (String Csv.newline EmptyString)) eqn:Hb; intros H.
  - injection H as H. by apply doubleQuotes_inj, (append_char_inj Csv.quote).
  - apply orb_false_iff in Hb as [Hb _]. apply orb_false_iff in Hb as [_ Hb].
    rewrite <- (includes_char_doubleQuotes Csv.quote), <- H, includes_char_cons in Hb.
    by rewrite bool_decide_eq_true_2 in Hb.
  - apply orb_false_iff in Ha as [Ha _]. apply orb_false_iff in Ha as [_ Ha].
    rewrite <- (includes_char_doubleQuotes Csv.quote), H, includes_char_cons in Ha.
    by rewrite bool_decide_eq_true_2 in Ha.
  - by apply doubleQuotes_inj.
Qed.

Lemma escapeField_injective_witness :
  Csv.escapeField "a,b" = Csv.escapeField ("a," +:+ "b") /\ "a,b" = "a," +:+ "b".
Proof.
  assert (Csv.escapeField "a,b" = Csv.escapeField ("a," +:+ "b")) as H by reflexivity.
  split; [exact H|]. apply (escapeField_injective "a,b" ("a," +:+ "b") H).
Defined.

Lemma doubleQuotes_plain (v : string) :
  includes v (String Csv.quote EmptyString) = false -> Csv.doubleQuotes v = v.
Proof.
  induction v as [|a v IH]; [done|]. rewrite includes_char_cons.
  intros [Ha Hv]%orb_false_iff. cbn [Csv.doubleQuotes].
  apply bool_decide_eq_false in Ha. rewrite decide_False by congruence. by rewrite IH.
Qed.

Lemma escapeField_plain (v : string) : Terms.plain v -> Csv.escapeField v = v.
Proof.
  intros (Hc & Hq & Hn). unfold Csv.escapeField. cbv zeta.
  rewrite (doubleQuotes_plain v Hq). unfold Csv.quote, Csv.newline.
  by rewrite Hc, Hq, Hn.
Qed.

Lemma includes_char_join (c sep : ascii) (l : list string) :
  c <> sep ->
  (forall x, x ∈ l -> includes x (String c EmptyString) = false) ->
  includes (JSArray.join (String sep EmptyString) l) (String c EmptyString) = false.
Proof.
  intros Hne. induction l as [|x r IH]; intros Hl; [done|].
  destruct r as [|y r]; [apply Hl, list_elem_of_here|].
  change (JSArray.join (String sep EmptyString) (x :: y :: r))
    with (x +:+ String sep EmptyString +:+ JSArray.join (String sep EmptyString) (y :: r)).
  rewrite !includes_char_app, (Hl x) by apply list_elem_of_here.
  rewrite includes_char_cons, bool_decide_eq_false_2 by done.
  rewrite IH; [done|]. intros z Hz. apply Hl. apply elem_of_cons. by right.
Qed.

(** X25. Reading back a CSV of plain texts: when there is at least one
    record and one header, and no header and no text of a value under a
    header holds a comma, a double quote or a line feed, then splitting the
    output of [toCSV] at the line feeds and each line at the commas gives
    the headers, followed for each record by the texts of its values under
    the headers. *)
Theorem toCSV_read_back (data : list Csv.Item) (fields : option (list string))
    (first : Csv.Item) (rest : list Csv.Item) :
  data = first :: rest ->
  let headers := default (Csv.keys first) fields in
  headers <> [] ->
  (forall h, h ∈ headers -> Terms.plain h) ->
  (forall item h, item ∈ data -> h ∈ headers -> Terms.plain (Csv.text (Csv.prop item h))) ->
  JSString.split "," <$> JSString.split Csv.newline (Csv.toCSV data fields)
  = headers :: ((fun item => (fun h => Csv.text (Csv.prop item h)) <$> headers) <$> data).
Proof.
  intros -> headers Hne Hh Hv. unfold Csv.toCSV. fold headers.
  assert (Hrow : forall item, item ∈ first :: rest ->
            Csv.row headers item
            = JSArray.join "," ((fun h => Csv.text (Csv.prop item h)) <$> headers)).
  { intros item Hi. unfold Csv.row. f_equal. apply list_fmap_ext.
    intros i h Hin%list_elem_of_lookup_2. apply escapeField_plain. by apply Hv. }
  rewrite split_join.
  - unfold Csv.rows. rewrite fmap_cons. f_equal.
    + apply split_join; [done|]. intros h Hin. apply (Hh h Hin).
    + rewrite <- list_fmap_compose. apply list_fmap_ext.
      intros i item Hi%list_elem_of_lookup_2. cbn [compose]. rewrite Hrow by done. apply split_join.
      * by destruct headers.
      * intros x (h & -> & Hin)%list_elem_of_fmap. apply (Hv item h Hi Hin).
  - done.
  - intros line [->|(item & -> & Hi)%list_elem_of_fmap]%elem_of_cons.
    + apply includes_char_join; [done|]. intros h Hin. apply (Hh h Hin).
    + rewrite Hrow by done. apply includes_char_join; [done|].
      intros x (h & -> & Hin)%list_elem_of_fmap. apply (Hv item h Hi Hin).
Qed.

Lemma toCSV_read_back_witness :
  let item := {| Csv.keys := ["id"; "title"];
                 Csv.prop := fun h => if bool_decide (h = "id") then Csv.VOther "p1"
                                      else if bool_decide (h = "title") then Csv.VOther "Need help"
                                      else Csv.VUndefined |} in
  JSString.split "," <$> JSString.split Csv.newline (Csv.toCSV [item] None)
  = [["id"; "title"]; ["p1"; "Need help"]].
Proof.
  intros item. apply (toCSV_read_back [item] None item []).
  - reflexivity.
  - discriminate.
  - intros h Hin. cbn in Hin.
    apply elem_of_cons in Hin as [->|Hin]; [by vm_compute|].
    apply elem_of_cons in Hin as [->|Hin]; [by vm_compute|].
    by apply elem_of_nil in Hin.
  - intros it h ->%list_elem_of_singleton Hin. cbn in Hin.
    apply elem_of_cons in Hin as [->|Hin]; [by vm_compute|].
    apply elem_of_cons in Hin as [->|Hin]; [by vm_compute|].
    by apply elem_of_nil in Hin.
Defined.


(** ** Competitors *)

Lemma str_length_app (a b : string) :
  String.length (a +:+ b) = String.length a + String.length b.
Proof. induction a as [|x a IH]; str_norm; [done|]. cbn [String.length]. by rewrite IH. Qed.

Lemma indexOf_spec (w : string) (s : string) : forall i,
  Competitors.indexOf s w = Some i ->
  exists pre post, s = pre +:+ w +:+ post /\ String.length pre = i.
Proof.
  induction s as [|c s IH]; intros i; cbn [Competitors.indexOf].
  - destruct (startsWith EmptyString w) eqn:E; [|done]. intros [= <-].
    apply startsWith_spec in E as [post E]. by exists EmptyString, post.
  - destruct (startsWith (String c s) w) eqn:E.
    + intros [= <-]. apply startsWith_spec in E as [post E]. by exists EmptyString, post.
    + destruct (Competitors.indexOf s w) as [j|] eqn:Ej; [|done]. intros [= <-].
      destruct (IH j eq_refl) as (pre & post & -> & Hlen).
      exists (String c pre), post. str_norm. cbn [String.length]. by rewrite Hlen.
Qed.

Lemma indexOf_includes (w : string) (s : string) :
  includes s w = true -> is_Some (Competitors.indexOf s w).
Proof.
  induction s as [|c s IH]; cbn [includes Competitors.indexOf].
  - intros ->. by eexists.
  - destruct (startsWith (String c s) w); [by eexists|]. cbn [orb].
    intros [j Hj]%IH. rewrite Hj. by eexists.
Qed.

Lemma substring_skip (pre s : string) (n : nat) :
  substring (String.length pre) n (pre +:+ s) = substring 0 n s.
Proof. induction pre as [|c pre IH]; str_norm; [done|]. cbn [String.length substring]. exact IH. Qed.

Lemma substring_take_app (a b : string) : forall n,
  String.length a <= n ->
  substring 0 n (a +:+ b) = a +:+ substring 0 (n - String.length a) b.
Proof.
  induction a as [|c a IH]; intros n Hn; str_norm.
  - by rewrite Nat.sub_0_r.
  - cbn [String.length] in *. destruct n as [|n]; [lia|].
    cbn [substring]. rewrite IH by lia. done.
Qed.

Lemma substring_prefix (s : string) : forall n,
  exists rest, s = substring 0 n s +:+ rest /\ String.length (substring 0 n s) <= n.
Proof.
  induction s as [|c s IH]; intros n.
  - exists EmptyString. destruct n; cbn; split; [done|lia|done|lia].
  - destruct n as [|n].
    + exists (String c s). cbn [substring]. by str_norm.
    + destruct (IH n) as (rest & Hr & Hl). exists rest. cbn [substring]. str_norm.
      split; [by rewrite <- Hr | cbn [String.length]; lia].
Qed.

Lemma string_split_at (s : string) : forall k,
  k <= String.length s ->
  exists a b, s = a +:+ b /\ String.length a = k.
Proof.
  induction s as [|c s IH]; intros k Hk; cbn [String.length] in Hk.
  - exists EmptyString, EmptyString. split; [done | cbn; lia].
  - destruct k as [|k].
    + by exists EmptyString, (String c s).
    + destruct (IH k ltac:(lia)) as (a & b & -> & Ha).
      exists (String c a), b. str_norm. split; [done | cbn [String.length]; lia].
Qed.

Lemma context_window (text comp : string) (idx : nat) :
  Competitors.indexOf text comp = Some idx ->
  let window := Competitors.slice text (idx - 30)
                  (String.length text `min` (idx + String.length comp + 30)) in
  Notions.substringOf comp window
  /\ Notions.substringOf window text
  /\ String.length window <= String.length comp + 60.
Proof.
  intros (pre & post & -> & Hpre)%indexOf_spec. cbv zeta. unfold Competitors.slice.
  destruct (string_split_at pre (idx - 30) ltac:(lia)) as (p1 & p2 & -> & Hp1).
  rewrite str_length_app in Hpre.
  set (n := _ `min` _ - (idx - 30)).
  assert (Hn : String.length (p2 +:+ comp) <= n
               /\ n - String.length (p2 +:+ comp) <= 30).
  { subst n. rewrite !str_length_app. lia. }
  destruct Hn as [Hn1 Hn2].
  destruct (substring_prefix post (n - String.length (p2 +:+ comp)))
    as (rest & Hrest & Hlen).
  assert (Hw : substring (idx - 30) n ((p1 +:+ p2) +:+ comp +:+ post)
               = (p2 +:+ comp) +:+ substring 0 (n - String.length (p2 +:+ comp)) post).
  { rewrite append_assoc_str, <- Hp1, substring_skip, <- (append_assoc_str p2 comp post).
    by apply substring_take_app. }
  rewrite Hw. clear Hw. set (q := substring 0 _ post) in *.
  split_and!.
  - exists p2, q. by rewrite append_assoc_str.
  - exists p1, rest. rewrite !append_assoc_str. by rewrite <- Hrest.
  - rewrite !str_length_app. rewrite str_length_app in Hn1, Hn2, Hlen. lia.
Qed.

Lemma context_windows (text : string) (competitors : list string) :
  (forall c, c ∈ competitors -> includes text c = true) ->
  Forall2 (fun comp ctx =>
             exists window,
               ctx = "..." +:+ window +:+ "..."
               /\ Notions.substringOf comp window
               /\ Notions.substringOf window text
               /\ String.length window <= String.length comp + 60)
          competitors (Competitors.extractCompetitorContext text competitors).
Proof.
  unfold Competitors.extractCompetitorContext.
  induction competitors as [|comp r IH]; intros Hall; [constructor|].
  cbn [omap list_omap].
  destruct (indexOf_includes comp text (Hall comp (list_elem_of_here _ _))) as [idx Hidx].
  rewrite Hidx. cbn [fmap option_fmap option_map].
  constructor.
  - eexists. split; [reflexivity|]. by apply context_window.
  - apply IH. intros c Hc. apply Hall. apply elem_of_cons. by right.
Qed.

(** X26. The snippets of [extractCompetitorContext]: when every name
    occurs in the text (as it does for the matched names that
    [trackCompetitors] passes), there is one snippet per name, in the order
    of the names; it is a window of the text between two ellipses, the
    window holds the name, and it is at most 60 characters longer than the
    name. *)
Theorem extractCompetitorContext_windows (text : string) (competitors : list string) :
  (forall c, c ∈ competitors -> includes text c = true) ->
  Forall2 (fun comp ctx =>
             exists window,
               ctx = "..." +:+ window +:+ "..."
               /\ Notions.substringOf comp window
               /\ Notions.substringOf window text
               /\ String.length window <= String.length comp + 60)
          competitors (Competitors.extractCompetitorContext text competitors).
Proof. apply context_windows. Qed.

Lemma extractCompetitorContext_windows_witness :
  Forall2 (fun comp ctx =>
             exists window,
               ctx = "..." +:+ window +:+ "..."
               /\ Notions.substringOf comp window
               /\ Notions.substringOf window "we moved from hubspot to a sheet"
               /\ String.length window <= String.length comp + 60)
          ["hubspot"]
          (Competitors.extractCompetitorContext "we moved from hubspot to a sheet" ["hubspot"]).
Proof.
  apply extractCompetitorContext_windows.
  intros c ->%list_elem_of_singleton. by vm_compute.
Defined.

(** X27. A name that does not occur in the text gets no snippet: the
    snippets are those of the names that occur. *)
Theorem extractCompetitorContext_skips (text : string) (competitors : list string) :
  Competitors.extractCompetitorContext text competitors
  = Competitors.extractCompetitorContext text
      (filter (fun c => includes text c = true) competitors).
Proof.
  unfold Competitors.extractCompetitorContext.
  induction competitors as [|comp r IH]; [done|].
  rewrite filter_cons. cbn [omap list_omap]. destruct (includes text comp) eqn:E.
  - rewrite decide_True by done. cbn [omap list_omap]. by rewrite IH.
  - rewrite decide_False by done.
    destruct (Competitors.indexOf text comp) as [idx|] eqn:Hidx; [|exact IH].
    apply indexOf_spec in Hidx as (pre & post & Heq & _).
    assert (includes text comp = true) as Hin by (apply includes_spec; eauto).
    congruence.
Qed.

Lemma elem_of_allMentions (fetch : Reddit.Fetch) (competitors subreddits : string)
    (limit : nat) (m : Competitors.Mention) :
  m ∈ Competitors.allMentions fetch competitors subreddits limit ->
  Competitors.subreddit m ∈ JSString.parseList subreddits
  /\ Competitors.mentionOf (Competitors.competitorListOf competitors)
       (Competitors.subreddit m) (Competitors.post m) = Some m.
Proof.
  unfold Competitors.allMentions. intros (sub & Hm & Hsub)%list_elem_of_bind.
  unfold Competitors.mentionsOfSub in Hm.
  destruct (fetch sub limit) as [children|]; [|by apply elem_of_nil in Hm].
  apply list_elem_of_omap in Hm as (p & _ & Hp).
  assert (Competitors.subreddit m = sub /\ Competitors.post m = p) as [-> ->].
  { unfold Competitors.mentionOf in Hp. cbv zeta in Hp.
    case_bool_decide; [|done]. by injection Hp as <-. }
  done.
Qed.

(** X28. What [trackCompetitors] reports: the mentions are those found in
    the communities, sorted by descending score, and [totalMentions] is
    their number; every mention comes from one of the given communities,
    names at least one competitor, names only competitors of the given list
    in the order of that list, each of them occurring in the lowercased
    title and body of the post, and carries one snippet per competitor it
    names. *)
Theorem trackCompetitors_mentions (fetch : Reddit.Fetch) (competitors subreddits : string)
    (limit : nat) :
  let t := Competitors.trackCompetitors fetch competitors subreddits limit in
  Competitors.mentions t ≡ₚ Competitors.allMentions fetch competitors subreddits limit
  /\ StronglySorted
       (fun a b => (Scout.score (Competitors.post b) <= Scout.score (Competitors.post a))%Z)
       (Competitors.mentions t)
  /\ Competitors.totalMentions t = length (Competitors.mentions t)
  /\ forall m, m ∈ Competitors.mentions t ->
       Competitors.subreddit m ∈ Competitors.trackedSubreddits t
       /\ Competitors.competitors m <> []
       /\ sublist (Competitors.competitors m) (Competitors.trackedCompetitors t)
       /\ (forall c, c ∈ Competitors.competitors m ->
             includes (toLowerCase (Scout.postText (Competitors.post m))) c = true)
       /\ length (Competitors.context m) = length (Competitors.competitors m).
Proof.
  cbv zeta. unfold Competitors.trackCompetitors.
  cbn [Competitors.mentions Competitors.totalMentions Competitors.trackedSubreddits
       Competitors.trackedCompetitors].
  split_and!.
  - apply sortWith_Permutation.
  - apply (sortWith_sorted (fun m => Scout.score (Competitors.post m))).
  - by rewrite sortWith_Permutation.
  - intros m Hm. rewrite sortWith_Permutation in Hm.
    apply elem_of_allMentions in Hm as [Hsub Hm]. split; [done|].
    unfold Competitors.mentionOf in Hm. cbv zeta in Hm.
    case_bool_decide as Hlen; [|done]. injection Hm as <-.
    cbn [Competitors.competitors Competitors.context Competitors.post].
    assert (Hin : forall c,
              c ∈ filter (fun c => includes (toLowerCase (Scout.postText (Competitors.post m))) c)
                    (Competitors.competitorListOf competitors) ->
              includes (toLowerCase (Scout.postText (Competitors.post m))) c = true).
    { intros c [Hc _]%list_elem_of_filter. by apply Is_true_true. }
    split_and!.
    + intros E. rewrite E in Hlen. cbn in Hlen. lia.
    + apply sublist_filter.
    + exact Hin.
    + symmetry. eapply Forall2_length, context_windows. exact Hin.
Qed.


(** ** The breakdown and the statistics of the daily digest *)

Lemma get_bump_eq (acc : list (string * nat)) (cat : string) :
  DailyDigest.get (DailyDigest.bump acc cat) cat
  = Some (S (default 0 (DailyDigest.get acc cat))).
Proof.
  induction acc as [|[k n] r IH]; cbn [DailyDigest.bump DailyDigest.get].
  - by rewrite decide_True.
  - destruct (decide (k = cat)) as [->|Hne]; cbn [DailyDigest.get].
    + by rewrite decide_True.
    + by rewrite decide_False.
Qed.

Lemma get_bump_ne (acc : list (string * nat)) (c cat : string) :
  c <> cat ->
  DailyDigest.get (DailyDigest.bump acc c) cat = DailyDigest.get acc cat.
Proof.
  intros Hne. induction acc as [|[k n] r IH]; cbn [DailyDigest.bump DailyDigest.get].
  - by rewrite decide_False.
  - destruct (decide (k = c)) as [->|Hk]; cbn [DailyDigest.get].
    + by rewrite !decide_False.
    + by rewrite IH.
Qed.

Lemma get_foldl_bump (keys : list string) (cat : string) : forall acc,
  NoDup keys ->
  DailyDigest.get (foldl DailyDigest.bump acc keys) cat
  = if decide (cat ∈ keys) then Some (S (default 0 (DailyDigest.get acc cat)))
    else DailyDigest.get acc cat.
Proof.
  induction keys as [|k r IH]; intros acc Hnd.
  - cbn [foldl]. rewrite decide_False; [done | apply not_elem_of_nil].
  - apply NoDup_cons in Hnd as [Hk Hr]. cbn [foldl]. rewrite IH by done.
    destruct (decide (k = cat)) as [->|Hne].
    + rewrite decide_False by done. rewrite get_bump_eq.
      rewrite decide_True by apply list_elem_of_here. done.
    + rewrite get_bump_ne by done.
      destruct (decide (cat ∈ r)) as [Hin|Hnin].
      * rewrite decide_True; [done | apply elem_of_cons; by right].
      * rewrite decide_False; [done|]. intros [->|Hin]%elem_of_cons; done.
Qed.

Lemma categoryBreakdown_foldl (pps : list (string * Scout.PainPoint)) (cat : string) :
  forall acc,
  Forall (fun pp => NoDup (Scout.categories pp.2).*1) pps ->
  DailyDigest.get
    (foldl (fun acc pp => foldl DailyDigest.bump acc (Scout.categories pp.2).*1) acc pps)
    cat
  = let n := length (filter (fun pp => cat ∈ (Scout.categories pp.2).*1) pps) in
    if decide (n = 0) then DailyDigest.get acc cat
    else Some (default 0 (DailyDigest.get acc cat) + n).
Proof.
  cbv zeta. induction pps as [|pp r IH]; intros acc Hnd; [done|].
  apply Forall_cons in Hnd as [Hpp Hr]. cbn [foldl]. rewrite IH by done.
  rewrite get_foldl_bump by done. rewrite filter_cons.
  destruct (decide (cat ∈ (Scout.categories pp.2).*1)) as [Hin|Hnin].
  - cbn [length default from_option id].
    rewrite (decide_False (P := S _ = 0)) by done.
    destruct (decide (length (filter _ r) = 0)) as [->|Hn]; f_equal; lia.
  - done.
Qed.

Lemma categoriesOf_keys (catalog : list (string * list string)) (text : string) :
  sublist (Scout.categoriesOf catalog text).*1 catalog.*1.
Proof.
  unfold Scout.categoriesOf. induction catalog as [|[k sigs] r IH]; [done|].
  cbn [omap list_omap fst snd]. case_bool_decide.
  - rewrite !fmap_cons. by apply sublist_skip.
  - rewrite fmap_cons. by apply sublist_cons.
Qed.

Lemma collected_painPoints_keys (fetch : Reddit.Fetch) (now : Z) (subs : list string)
    (hours : Z) (limit : nat) :
  Forall (fun pp => NoDup (Scout.categories pp.2).*1)
         (DailyDigest.collected fetch now subs hours limit).1.2.
Proof.
  unfold DailyDigest.collected. cbv zeta. cbn [fst snd].
  induction subs as [|sub subs IH]; [constructor|].
  rewrite !fmap_cons. cbn [concat]. apply Forall_app. split; [|exact IH].
  unfold Scout.digestOfSub. destruct (fetch sub limit) as [children|]; [|constructor].
  cbn [fst snd]. apply Forall_fmap, Forall_forall. intros pp Hpp. cbn [compose snd].
  unfold Scout.detectPainPoints, Scout.detectPainPointsWith in Hpp.
  apply list_elem_of_fmap in Hpp as (p & -> & _). cbn [Scout.annotate Scout.categories].
  eapply sublist_NoDup; [|apply categoriesOf_keys]. apply (bool_decide_unpack _). by vm_compute.
Qed.


(** X29. The category breakdown of the daily digest counts, for each
    category, the pain points of the window that matched a signal of that
    category: a pain point that matched under several categories is counted
    once under each, and a category without any such pain point has no
    entry. *)
Theorem digest_categoryBreakdown (fetch : Reddit.Fetch) (now : Z)
    (subs : list string) (hours : Z) (limit : nat) (cat : string) :
  let painPoints := (DailyDigest.collected fetch now subs hours limit).1.2 in
  let n := length (filter (fun pp => cat ∈ (Scout.categories pp.2).*1) painPoints) in
  DailyDigest.get (DailyDigest.digestCategoryBreakdown fetch now subs hours limit) cat
  = if decide (n = 0) then None else Some n.
Proof.
  cbv zeta. unfold DailyDigest.digestCategoryBreakdown, DailyDigest.categoryBreakdown.
  rewrite categoryBreakdown_foldl by apply collected_painPoints_keys.
  cbv zeta. by case_decide.
Qed.

Lemma filter_tag_fmap {A} (s sub : string) (l : list A) :
  filter (fun x : string * A => x.1 = sub) (pair s <$> l)
  = if decide (s = sub) then pair s <$> l else [].
Proof.
  induction l as [|x r IH]; [by case_decide|].
  rewrite fmap_cons, filter_cons, IH. cbn [fst]. by case_decide.
Qed.

Lemma digestOfSub_counts (fetch : Reddit.Fetch) (limit : nat) (cutoff : Z)
    (s sub : string) :
  let part := Scout.digestOfSub fetch limit cutoff s in
  length (filter (fun x => x.1 = sub) part.1.2)
  <= length (filter (fun x => x.1 = sub) part.1.1)
  /\ length (filter (fun x => x.1 = sub) part.2)
     <= length (filter (fun x => x.1 = sub) part.1.1).
Proof.
  cbv zeta. unfold Scout.digestOfSub. destruct (fetch s limit) as [children|]; [|done].
  cbn [fst snd]. rewrite !filter_tag_fmap. case_decide; [|done].
  rewrite !length_fmap.
  unfold Scout.detectPainPoints, Scout.detectPainPointsWith, Scout.detectOpportunities.
  split.
  - rewrite length_fmap. apply length_filter.
  - rewrite length_fmap. apply length_filter.
Qed.

Lemma collected_counts (fetch : Reddit.Fetch) (now : Z) (subs : list string)
    (hours : Z) (limit : nat) (sub : string) :
  let c := DailyDigest.collected fetch now subs hours limit in
  length (filter (fun x => x.1 = sub) c.1.2) <= length (filter (fun x => x.1 = sub) c.1.1)
  /\ length (filter (fun x => x.1 = sub) c.2) <= length (filter (fun x => x.1 = sub) c.1.1).
Proof.
  cbv zeta. unfold DailyDigest.collected. cbv zeta. cbn [fst snd].
  induction subs as [|s subs IH]; [done|].
  rewrite !fmap_cons. cbn [concat]. rewrite !filter_app, !length_app.
  destruct IH as [IH1 IH2].
  destruct (digestOfSub_counts fetch limit (now - hours * 60 * 60 * 1000) s sub)
    as [P1 P2].
  split; lia.
Qed.

Lemma mathRound_quotient (t : Z) (p : positive) :
  let a := mathRound (inject_Z t / inject_Z (Zpos p)) in
  (- Zpos p < 2 * (a * Zpos p - t) <= Zpos p)%Z.
Proof.
  cbv zeta. unfold mathRound.
  assert (E : inject_Z t / inject_Z (Zpos p) + (1 # 2)
              == (2 * t + Zpos p) # (2 * p)).
  { unfold Qeq, Qdiv, Qmult, Qinv, Qplus, inject_Z. cbn. lia. }
  rewrite (Qfloor_comp _ _ E). cbn [Qfloor].
  pose proof (Z.div_mod (2 * t + Zpos p) (Zpos (2 * p)) ltac:(done)) as Hd.
  pose proof (Z.mod_pos_bound (2 * t + Zpos p) (Zpos (2 * p)) ltac:(done)) as Hm.
  rewrite Pos2Z.inj_mul in *. lia.
Qed.

(** X30. The statistics of a community in the daily digest: it has no more
    pain points and no more opportunities than posts; with no post its
    total and average scores are 0; otherwise its average score is the
    integer nearest to the total score divided by the number of posts
    (halves upwards). *)
Theorem digest_subredditStats (fetch : Reddit.Fetch) (now : Z)
    (subs : list string) (hours : Z) (limit : nat) (sub : string) :
  let s := DailyDigest.digestStatsOf fetch now subs hours limit sub in
  let n := Z.of_nat (DailyDigest.posts s) in
  DailyDigest.painPoints s <= DailyDigest.posts s
  /\ DailyDigest.opportunities s <= DailyDigest.posts s
  /\ (DailyDigest.posts s = 0 ->
      DailyDigest.totalScore s = 0%Z /\ DailyDigest.avgScore s = 0%Z)
  /\ (DailyDigest.posts s <> 0 ->
      (- n < 2 * (DailyDigest.avgScore s * n - DailyDigest.totalScore s) <= n)%Z).
Proof.
  cbv zeta. unfold DailyDigest.digestStatsOf, DailyDigest.statsOf. cbv zeta.
  cbn [DailyDigest.posts DailyDigest.painPoints DailyDigest.opportunities
       DailyDigest.totalScore DailyDigest.avgScore].
  set (c := DailyDigest.collected fetch now subs hours limit).
  assert (Hlen : length (filter (fun p => p.1 = sub)
                   (JSArray.sortWith (JSArray.descending DailyDigest.engagement) c.1.1))
                 = length (filter (fun p => p.1 = sub) c.1.1)).
  { by rewrite sortWith_Permutation. }
  destruct (collected_counts fetch now subs hours limit sub) as [H1 H2]. fold c in H1, H2.
  set (subPosts := filter (fun p => p.1 = sub) (JSArray.sortWith _ c.1.1)) in *.
  split_and!.
  - lia.
  - lia.
  - intros Hz. destruct subPosts; [|done]. by vm_compute.
  - intros Hz. destruct (length subPosts) as [|k] eqn:Ek; [done|].
    rewrite decide_False by done.
    replace (Z.of_nat (S k)) with (Zpos (Pos.of_succ_nat k)) by lia.
    apply mathRound_quotient.
Qed.
